(** * Vigilante: checkpoint submitter and reorg-aware block-event handlers

    A shallow embedding of [submitter/ckpt_relayer.go] (the sealed
    checkpoint worker, UTXO selection, transaction building and
    broadcasting) and of the reporter's block-event handlers
    ([handleConnectedBlocks], [handleDisconnectedBlocks]), with the
    properties of the design document proved or refuted on them.

    Calls to collaborators (wallet RPC, Bitcoin client, consensus-chain
    client, logger) are recorded in a trace; what a collaborator answers
    may depend on everything that happened before the call. *)

From Stdlib Require Import ZArith Bool List Lia Permutation.
From Stdlib.Strings Require Import String Ascii Byte.
From Stdlib Require Import PrimFloat FloatOps SpecFloat Uint63.
From Stdlib Require Import Sorted FloatAxioms.
Import ListNotations.
Open Scope Z_scope.

(* ================================================================= *)
(** ** Go values and the library functions the code calls *)

Module Go.

(** Go's [error] values are compared only against [nil] in this code;
    their text is all that is kept. *)
Definition error := string.

(** A call returning [(v, err)]: [Ok v] when [err == nil]. *)
Inductive result (A : Type) : Type :=
| Ok (a : A)
| Err (e : error).
Arguments Ok {A} a.
Arguments Err {A} e.

Definition bytes := list byte.

Definition is_ok {A} (r : result A) : bool :=
  match r with Ok _ => true | Err _ => false end.

(** [int64] arithmetic wraps around. *)
Definition wrap64 (z : Z) : Z := (z + 2 ^ 63) mod 2 ^ 64 - 2 ^ 63.

Definition float64 := PrimFloat.float.

(** [float64(i)] for an [int64] [i]: the nearest binary64 value. *)
Definition float64_of_int64 (i : Z) : float64 :=
  if i =? - 2 ^ 63 then (-9223372036854775808)%float
  else if i <? 0 then PrimFloat.opp (PrimFloat.of_uint63 (Uint63.of_Z (- i)))
  else PrimFloat.of_uint63 (Uint63.of_Z i).

(** [int64(f)] for a [float64] [f]: the fraction is discarded; a value
    that does not fit (and NaN) gives the smallest [int64], as the amd64
    conversion instruction does. *)
Definition int64_of_float64 (f : float64) : Z :=
  match Prim2SF f with
  | S754_zero _ => 0
  | S754_finite s m e =>
      let mag := if 0 <=? e then Z.pos m * 2 ^ e else Z.pos m / 2 ^ (- e) in
      let v := if s then - mag else mag in
      if (- 2 ^ 63 <=? v) && (v <? 2 ^ 63) then v else - 2 ^ 63
  | S754_infinity _ | S754_nan => - 2 ^ 63
  end.

(** *** [sort.Slice] *)

Section Slices.
Context {A : Type}.

(** [l[i] = x]; nothing happens out of range (the code below never
    writes out of range). *)
Fixpoint update (i : nat) (x : A) (l : list A) : list A :=
  match l, i with
  | [], _ => []
  | _ :: t, O => x :: t
  | a :: t, S i' => a :: update i' x t
  end.

(** [data.Swap(i, j)] of [reflect.Swapper]. *)
Definition Swap (l : list A) (i j : nat) : list A :=
  match nth_error l i, nth_error l j with
  | Some x, Some y => update i y (update j x l)
  | _, _ => l
  end.

Variable less : A -> A -> bool.

(** The inner loop of [insertionSortLessFunc]:
    [for j := i; j > a && data.Less(j, j-1); j-- { data.Swap(j, j-1) }].
    [less] is applied to the elements standing at [j] and [j-1] at that
    moment, as the closure given to [sort.Slice] reads the slice. *)
Fixpoint sink (l : list A) (j : nat) : list A :=
  match j with
  | O => l
  | S j' =>
      match nth_error l j, nth_error l j' with
      | Some x, Some y => if less x y then sink (Swap l j j') j' else l
      | _, _ => l
      end
  end.

(** [insertionSortLessFunc(data, 0, n)]: [for i := 1; i < n; i++]. *)
Definition insertionSort (l : list A) : list A :=
  fold_left sink (seq 1 (List.length l - 1)) l.

(** Since Go 1.19 [sort.Slice] runs [insertionSortLessFunc] alone on a
    slice of at most [maxInsertion] elements, and pattern-defeating
    quicksort on a longer one.  The latter is not reproduced; it only
    calls [Less] and [Swap], so its result is some rearrangement of the
    slice, and this is all that is assumed of it. *)
Definition LongSort : Type :=
  forall l : list A, { l' : list A | Permutation l l' }.

Definition maxInsertion : nat := 12.

(** [sort.Slice(x, less)]. *)
Definition sort_Slice (pdqsort : LongSort) (l : list A) : list A :=
  if (List.length l <=? maxInsertion)%nat then insertionSort l
  else proj1_sig (pdqsort l).

End Slices.

End Go.
Import Go.

(* ================================================================= *)
(** ** [btcutil.Amount] *)

Module btcutil.

(** Satoshi, an [int64]. *)
Definition Amount := Z.

Definition SatoshiPerBitcoin : float64 := 100000000%float.

(** [Amount.ToBTC]: [float64(a) / 1e8]. *)
Definition ToBTC (a : Amount) : float64 :=
  (float64_of_int64 a / SatoshiPerBitcoin)%float.

(** [round]: [if f < 0 { return Amount(f - 0.5) }; return Amount(f + 0.5)]. *)
Definition round (f : float64) : Amount :=
  if PrimFloat.ltb f 0%float then int64_of_float64 (f - 0.5)%float
  else int64_of_float64 (f + 0.5)%float.

(** [NewAmount]: refuses NaN and the infinities, otherwise rounds
    [f * 1e8] to the nearest satoshi. *)
Definition NewAmount (f : float64) : result Amount :=
  if PrimFloat.is_nan f || PrimFloat.is_infinity f
  then Err "invalid bitcoin amount"%string
  else Ok (round (f * SatoshiPerBitcoin)%float).

End btcutil.

(* ================================================================= *)
(** ** [wire]: transactions *)

Module wire.

Record OutPoint := { Hash : bytes; Index : Z }.

(** [wire.TxIn] and [wire.TxOut] are named [TxInput] and [TxOutput]
    here, [TxIn] and [TxOut] being the fields of [MsgTx]. *)
Record TxInput := {
  PreviousOutPoint : OutPoint;
  SignatureScript : bytes;
  Witness : list bytes;
  Sequence : Z }.

Record TxOutput := { Value : Z; PkScript : bytes }.

Record MsgTx := {
  Version : Z;
  TxIn : list TxInput;
  TxOut : list TxOutput;
  LockTime : Z }.

Definition TxVersion : Z := 1.
Definition MaxTxInSequenceNum : Z := 4294967295.

Definition NewMsgTx (version : Z) : MsgTx :=
  {| Version := version; TxIn := []; TxOut := []; LockTime := 0 |}.

Definition NewOutPoint (hash : bytes) (index : Z) : OutPoint :=
  {| Hash := hash; Index := index |}.

Definition NewTxIn (prevOut : OutPoint) (signatureScript : bytes)
  (witness : list bytes) : TxInput :=
  {| PreviousOutPoint := prevOut; SignatureScript := signatureScript;
     Witness := witness; Sequence := MaxTxInSequenceNum |}.

Definition NewTxOut (value : Z) (pkScript : bytes) : TxOutput :=
  {| Value := value; PkScript := pkScript |}.

Definition AddTxIn (tx : MsgTx) (ti : TxInput) : MsgTx :=
  {| Version := Version tx; TxIn := TxIn tx ++ [ti];
     TxOut := TxOut tx; LockTime := LockTime tx |}.

Definition AddTxOut (tx : MsgTx) (to : TxOutput) : MsgTx :=
  {| Version := Version tx; TxIn := TxIn tx;
     TxOut := TxOut tx ++ [to]; LockTime := LockTime tx |}.

(** [tx.TxIn[i].SignatureScript = sig]. *)
Definition setSignatureScript (tx : MsgTx) (i : nat) (sig : bytes) : MsgTx :=
  match nth_error (TxIn tx) i with
  | Some ti =>
      {| Version := Version tx;
         TxIn := update i {| PreviousOutPoint := PreviousOutPoint ti;
                             SignatureScript := sig;
                             Witness := Witness ti;
                             Sequence := Sequence ti |} (TxIn tx);
         TxOut := TxOut tx; LockTime := LockTime tx |}
  | None => tx
  end.

End wire.

(* ================================================================= *)
(** ** The submitter: [submitter/ckpt_relayer.go] *)

Module Submitter.
Import wire.
Open Scope string_scope.
Open Scope list_scope.

(** [btcjson.ListUnspentResult]: one unspent output as the wallet
    reports it; [Amount] is in BTC. *)
Record ListUnspentResult := {
  TxID : string;
  Vout : Z;
  Address : string;
  Account : string;
  ScriptPubKey : string;
  RedeemScript : string;
  Amount : float64;
  Confirmations : Z;
  Spendable : bool }.

(** [ckpttypes.CheckpointStatus]. *)
Inductive CheckpointStatus :=
| Accumulating | Sealed | Submitted | Confirmed | Finalized.

Definition CheckpointStatus_eqb (a b : CheckpointStatus) : bool :=
  match a, b with
  | Accumulating, Accumulating | Sealed, Sealed | Submitted, Submitted
  | Confirmed, Confirmed | Finalized, Finalized => true
  | _, _ => false
  end.

Record RawCheckpoint := {
  EpochNum : Z;
  LastCommitHash : bytes;
  Bitmap : bytes;
  BlsMultiSig : bytes }.

Record RawCheckpointWithMeta := {
  Ckpt : RawCheckpoint;
  Status : CheckpointStatus }.

(** The wallet's and the submitter's configuration, as far as read. *)
Record BTCConfig := {
  TxFee : btcutil.Amount;
  WalletPassword : string;
  WalletLockTime : Z }.

Record SubmitterConfig := {
  GetTag : bytes;
  GetVersion : Z;
  NetParams : string }.

Record Submitter := {
  Cfg : SubmitterConfig;
  btcWallet_Cfg : BTCConfig;
  account : string;
  submitterAddress : bytes }.

(** A [btcutil.Address] by its encoding; [option] where the code may
    hold [nil]. *)
Definition BtcAddress := string.

Record WIF := { PrivKey : bytes }.

Definition SigHashAll : Z := 1.

(** *** What the submitter does to the outside *)

Inductive Level := LvlDebug | LvlInfo | LvlWarn | LvlError.

Inductive Arg :=
| AInt (z : Z)
| AStr (s : string)
| ABytes (b : bytes).

Inductive Event :=
| Logf (lvl : Level) (format : string) (args : list Arg)
| Call_ListUnspent
| Call_GetRawChangeAddress (acct : string)
| Call_WalletPassphrase (passphrase : string) (timeoutSecs : Z)
| Call_DumpPrivKey (addr : option BtcAddress)
| Call_SendRawTransaction (tx : MsgTx) (allowHighFees : bool).

Definition Trace := list Event.

(** The collaborators.  A wallet or node call answers from the history
    of the run so far; the other functions are libraries without state. *)
Record Env := {
  ListUnspent : Trace -> result (list ListUnspentResult);
  GetRawChangeAddress : Trace -> string -> result BtcAddress;
  WalletPassphrase : Trace -> string -> Z -> result unit;
  DumpPrivKey : Trace -> option BtcAddress -> result WIF;
  SendRawTransaction : Trace -> MsgTx -> bool -> result bytes;
  (** [ckpt.Ckpt.LastCommitHash.Marshal()] *)
  Marshal : bytes -> result bytes;
  (** [btctxformatter.EncodeCheckpointData] *)
  EncodeCheckpointData :
    bytes -> Z -> Z -> bytes -> bytes -> bytes -> bytes -> result (bytes * bytes);
  (** [chainhash.NewHashFromStr] *)
  NewHashFromStr : string -> result bytes;
  (** [txscript.NewScriptBuilder().AddOp(OP_RETURN).AddData(data).Script()] *)
  NullDataScript : bytes -> result bytes;
  (** [hex.DecodeString] *)
  hex_DecodeString : string -> result bytes;
  (** [txscript.PayToAddrScript] *)
  PayToAddrScript : BtcAddress -> result bytes;
  (** [btcutil.DecodeAddress(addr, netparams.GetBTCParams(net))] *)
  DecodeAddress : string -> string -> result BtcAddress;
  (** [txscript.SignatureScript] *)
  txscript_SignatureScript :
    MsgTx -> Z -> bytes -> Z -> bytes -> bool -> result bytes;
  (** [tx.Serialize] *)
  Serialize : MsgTx -> result bytes;
  (** [tx.TxHash()] *)
  TxHash : MsgTx -> bytes;
  (** [sort.Slice] on a slice of more than [maxInsertion] entries *)
  pdqsort : (ListUnspentResult -> ListUnspentResult -> bool) ->
            LongSort (A := ListUnspentResult) }.

(** A step of the code: it reads and extends the trace, and returns a
    value or an error. *)
Definition M (A : Type) : Type := Trace -> Trace * result A.

Definition ret {A} (a : A) : M A := fun t => (t, Ok a).

Definition fail {A} (e : error) : M A := fun t => (t, Err e).

(** [v, err := m; if err != nil { return err }; f v] *)
Definition bind {A B} (m : M A) (f : A -> M B) : M B :=
  fun t =>
    match m t with
    | (t', Ok a) => f a t'
    | (t', Err e) => (t', Err e)
    end.

Definition lift {A} (r : result A) : M A := fun t => (t, r).

Definition logf (lvl : Level) (format : string) (args : list Arg) : M unit :=
  fun t => (t ++ [Logf lvl format args], Ok tt).

Definition call {A} (e : Event) (answer : Trace -> result A) : M A :=
  fun t => (t ++ [e], answer t).

Declare Scope go_scope.
Delimit Scope go_scope with go.
Notation "x <- m ;; k" := (bind m (fun x => k))
  (at level 61, m at next level, right associativity) : go_scope.
Notation "' p <- m ;; k" := (bind m (fun x => let p := x in k))
  (at level 61, p pattern, m at next level, right associativity) : go_scope.
Notation "m ;; k" := (bind m (fun _ => k))
  (at level 61, right associativity) : go_scope.
Open Scope go_scope.

Section Code.
Variable env : Env.
Variable s : Submitter.

(** The [less] closure given to [sort.Slice]:
    [utxos[i].Spendable && utxos[i].Amount > utxos[j].Amount]. *)
Definition utxoLess (ui uj : ListUnspentResult) : bool :=
  Spendable ui && (Amount uj <? Amount ui)%float.

Definition getTopTwoUTXOs : M (ListUnspentResult * ListUnspentResult) :=
  logf LvlDebug "Searching for unspent transactions..." [] ;;
  utxos <- call Call_ListUnspent (ListUnspent env) ;;
  if (List.length utxos <? 2)%nat
  then fail "insufficient unspent transactions"
  else
    let utxos := sort_Slice utxoLess (pdqsort env utxoLess) utxos in
    let txfee := btcutil.ToBTC (TxFee (btcWallet_Cfg s)) in
    match utxos with
    | u0 :: u1 :: _ =>
        if (Amount u0 <? txfee)%float then fail "insufficient fees"
        else if (Amount u1 <? txfee)%float then fail "insufficient fees"
        else
          logf LvlDebug "Found two unspent transactions, tx1: %v, tx2: %v"
               [AStr (TxID u0); AStr (TxID u1)] ;;
          ret (u0, u1)
    | _ => fail "index out of range"
    end.

Definition buildTxWithData (utxo : ListUnspentResult) (data : bytes) : M MsgTx :=
  logf LvlDebug "Building a BTC tx using %v with data %x"
       [AStr (TxID utxo); ABytes data] ;;
  let tx := NewMsgTx TxVersion in
  (* build txin *)
  hash <- lift (NewHashFromStr env (TxID utxo)) ;;
  let outPoint := NewOutPoint hash 0 in
  let txIn := NewTxIn outPoint [] [] in
  let tx := AddTxIn tx txIn in
  (* build txout for data *)
  dataScript <- lift (NullDataScript env data) ;;
  let tx := AddTxOut tx (NewTxOut 0 dataScript) in
  (* build txout for change *)
  changeAddr <- call (Call_GetRawChangeAddress (account s))
                     (fun t => GetRawChangeAddress env t (account s)) ;;
  logf LvlDebug "Got a change address %v" [AStr changeAddr] ;;
  prevPKScript <- lift (hex_DecodeString env (ScriptPubKey utxo)) ;;
  changeScript <- lift (PayToAddrScript env changeAddr) ;;
  amount <- lift (btcutil.NewAmount (Amount utxo)) ;;
  let tx := AddTxOut tx
    (NewTxOut (wrap64 (amount - TxFee (btcWallet_Cfg s))) changeScript) in
  (* sign tx *)
  let pass := WalletPassword (btcWallet_Cfg s) in
  let lockTime := WalletLockTime (btcWallet_Cfg s) in
  call (Call_WalletPassphrase pass lockTime)
       (fun t => WalletPassphrase env t pass lockTime) ;;
  (* the error of DecodeAddress is overwritten unread; the address is nil
     then, and what DumpPrivKey makes of it is the wallet's answer: a
     client that reads the address does not return from that call *)
  let prevAddr :=
    match DecodeAddress env (Address utxo) (NetParams (Cfg s)) with
    | Ok a => Some a
    | Err _ => None
    end in
  wif <- call (Call_DumpPrivKey prevAddr) (fun t => DumpPrivKey env t prevAddr) ;;
  sig <- lift (txscript_SignatureScript env tx 0 prevPKScript SigHashAll
                 (PrivKey wif) true) ;;
  let tx := setSignatureScript tx 0 sig in
  (* serialization *)
  signedTxHex <- lift (Serialize env tx) ;;
  logf LvlDebug "Successfully composed a BTC tx, hex: %x" [ABytes signedTxHex] ;;
  ret tx.

Definition sendTxToBTC (tx : MsgTx) : M bytes :=
  logf LvlDebug "Sending tx %v to BTC" [ABytes (TxHash env tx)] ;;
  ha <- call (Call_SendRawTransaction tx true)
             (fun t => SendRawTransaction env t tx true) ;;
  logf LvlDebug "Successfully sent tx %v to BTC" [ABytes (TxHash env tx)] ;;
  ret ha.

Definition ConvertCkptToTwoTxAndSubmit (ckpt : RawCheckpointWithMeta) : M unit :=
  lch <- lift (Marshal env (LastCommitHash (Ckpt ckpt))) ;;
  ' (data1, data2) <- lift (EncodeCheckpointData env
      (GetTag (Cfg s)) (GetVersion (Cfg s)) (EpochNum (Ckpt ckpt)) lch
      (Bitmap (Ckpt ckpt)) (BlsMultiSig (Ckpt ckpt)) (submitterAddress s)) ;;
  ' (utxo1, utxo2) <- getTopTwoUTXOs ;;
  tx1 <- buildTxWithData utxo1 data1 ;;
  txid1 <- sendTxToBTC tx1 ;;
  tx2 <- buildTxWithData utxo2 data2 ;;
  txid2 <- sendTxToBTC tx2 ;;
  logf LvlDebug
    "Sent two txs to BTC for checkpointing epoch %v, first txid: %v, second txid: %v"
    [AInt (EpochNum (Ckpt ckpt)); ABytes txid1; ABytes txid2] ;;
  ret tt.

Definition SubmitCkpt (ckpt : RawCheckpointWithMeta) : M unit :=
  logf LvlDebug "Submitting a raw checkpoint for epoch %v"
       [AInt (EpochNum (Ckpt ckpt))] ;;
  ConvertCkptToTwoTxAndSubmit ckpt ;;
  logf LvlInfo "Successfully submitted a raw checkpoint for epoch %v"
       [AInt (EpochNum (Ckpt ckpt))] ;;
  ret tt.

(** What one turn of the worker's [select] yields while [rawCkptChan]
    is open.  The receive has the single-value form, so a closed channel
    would hand the loop a nil checkpoint, whose status cannot be read:
    such a turn is not among these outcomes. *)
Inductive Selected :=
| FromRawCkptChan (ckpt : RawCheckpointWithMeta)
| FromQuit.

(** How a run of the worker over a finite run of [select] outcomes ends:
    it returned, or it waits in [select] for the next one. *)
Inductive LoopEnd := Returned | Waiting.

(** The [case ckpt := <-s.rawCkptChan] branch. *)
Definition onRawCkpt (ckpt : RawCheckpointWithMeta) (t : Trace) : Trace :=
  if CheckpointStatus_eqb (Status ckpt) Sealed then
    let t1 := t ++ [Logf LvlInfo "A sealed raw checkpoint for epoch %v is found"
                      [AInt (EpochNum (Ckpt ckpt))]] in
    match SubmitCkpt ckpt t1 with
    | (t2, Err err) =>
        t2 ++ [Logf LvlError "Failed to submit the raw checkpoint for %v: %v"
                 [AInt (EpochNum (Ckpt ckpt)); AStr err]]
    | (t2, Ok _) => t2
    end
  else t.

Fixpoint sealedCkptHandler (inbox : list Selected) (t : Trace) : Trace * LoopEnd :=
  match inbox with
  | [] => (t, Waiting)
  | FromRawCkptChan ckpt :: inbox' => sealedCkptHandler inbox' (onRawCkpt ckpt t)
  | FromQuit :: _ => (t, Returned)
  end.

End Code.

(** *** Reading a trace *)

(** The history at the moment [getTopTwoUTXOs] asks the wallet. *)
Definition searched (t : Trace) : Trace :=
  t ++ [Logf LvlDebug "Searching for unspent transactions..." []].

(** The history at the moment the worker calls [SubmitCkpt]. *)
Definition found (ckpt : RawCheckpointWithMeta) (t : Trace) : Trace :=
  t ++ [Logf LvlInfo "A sealed raw checkpoint for epoch %v is found"
          [AInt (EpochNum (Ckpt ckpt))]].

(** [buildTxWithData] announces itself first thing. *)
Definition isBuildStart (e : Event) : bool :=
  match e with
  | Logf LvlDebug format _ =>
      String.eqb format "Building a BTC tx using %v with data %x"
  | _ => false
  end.

Definition isSend (e : Event) : bool :=
  match e with
  | Call_SendRawTransaction _ _ => true
  | _ => false
  end.

(** Transaction builds started, and broadcasts requested, in [ev]. *)
Definition builds (ev : Trace) : nat := List.length (filter isBuildStart ev).

Definition sends (ev : Trace) : nat := List.length (filter isSend ev).

(** Broadcasts in [ev] that the node accepted, [ev] being what happened
    after the history [hist]. *)
Fixpoint accepted (env : Env) (hist ev : Trace) : nat :=
  match ev with
  | [] => O
  | e :: ev' =>
      (match e with
       | Call_SendRawTransaction tx allowHighFees =>
           if is_ok (SendRawTransaction env hist tx allowHighFees) then 1 else 0
       | _ => 0
       end + accepted env (hist ++ [e]) ev')%nat
  end.

(** A step only ever adds to the trace. *)
Definition extends {A} (m : M A) : Prop :=
  forall t, exists ev, fst (m t) = t ++ ev.

(** The same unspent output reported at another output index. *)
Definition withVout (v : Z) (u : ListUnspentResult) : ListUnspentResult :=
  {| TxID := TxID u; Vout := v; Address := Address u; Account := Account u;
     ScriptPubKey := ScriptPubKey u; RedeemScript := RedeemScript u;
     Amount := Amount u; Confirmations := Confirmations u;
     Spendable := Spendable u |}.

(** The order the design document asks of the selection: spendable
    before non-spendable, then the larger amount first.  [rankedBefore a b]
    says that [a] may stand before [b]. *)
Definition rankedBefore (a b : ListUnspentResult) : bool :=
  match Spendable a, Spendable b with
  | true, false => true
  | false, true => false
  | _, _ => (Amount b <=? Amount a)%float
  end.

End Submitter.

(* ================================================================= *)
(** ** The reporter's block-event handlers *)

Module Reporter.
Open Scope string_scope.
Open Scope list_scope.

(** [chainhash.Hash] values are compared with [==] / [!=]. *)
Fixpoint Hash_eqb (a b : bytes) : bool :=
  match a, b with
  | [], [] => true
  | x :: a', y :: b' => Byte.eqb x y && Hash_eqb a' b'
  | _, _ => false
  end.

Record BlockHeader := {
  Version : Z;
  PrevBlock : bytes;
  MerkleRoot : bytes;
  Timestamp : Z;
  Bits : Z;
  Nonce : Z }.

(** [types.IndexedBlock] *)
Record IndexedBlock := {
  Height : Z;
  Header : BlockHeader;
  Txs : list bytes }.

(** [wire.MsgBlock]; its [Header] field is [MsgHeader] here. *)
Record MsgBlock := {
  MsgHeader : BlockHeader;
  Transactions : list bytes }.

Inductive EventType := BlockDisconnected | BlockConnected.

(** [types.BlockEvent]: its fields [EventType], [Height] and [Header]. *)
Record BlockEvent := {
  Type_ : EventType;
  EventHeight : Z;
  EventHeader : BlockHeader }.

Inductive Level := LvlWarn | LvlError.

Inductive Arg :=
| AHash (h : bytes)
| AErr (e : error).

(** Calls on the reporter's collaborators: the consensus-chain client,
    the Bitcoin client, the block cache, the bootstrap procedure, the
    header and checkpoint extraction, and the logger. *)
Inductive Event :=
| Logf (lvl : Level) (format : string) (args : list Arg)
| Call_MustGetAddr
| Call_GetBlockByHash (blockHash : bytes)
| Call_Tip
| Call_Add (ib : IndexedBlock)
| Call_RemoveLast
| Call_Bootstrap (force : bool)
| Call_processHeaders (signer : string) (ibs : list IndexedBlock)
| Call_processCheckpoints (signer : string) (ibs : list IndexedBlock).

Definition Trace := list Event.

(** What the collaborators answer, given the history of the run.  The
    cache is shared with the other event loop of the reporter, so what
    [Tip] and [RemoveLast] answer is the cache's business, not a
    function of this handler's own calls. *)
Record Env := {
  MustGetAddr : Trace -> string;
  GetBlockByHash : Trace -> bytes -> result (IndexedBlock * MsgBlock);
  (** [r.btcCache.Tip()], [nil] when the cache is empty *)
  Tip : Trace -> option IndexedBlock;
  (** [r.btcCache.RemoveLast()] *)
  RemoveLast : Trace -> result unit;
  (** [BlockHeader.BlockHash()] *)
  BlockHash : BlockHeader -> bytes }.

(** A handler returns, or panics with an error. *)
Inductive Outcome (A : Type) : Type :=
| Done (a : A)
| Panic (e : error).
Arguments Done {A} a.
Arguments Panic {A} e.

Definition R (A : Type) : Type := Trace -> Trace * Outcome A.

Definition ret {A} (a : A) : R A := fun t => (t, Done a).

Definition panic {A} (e : error) : R A := fun t => (t, Panic e).

Definition bind {A B} (m : R A) (f : A -> R B) : R B :=
  fun t =>
    match m t with
    | (t', Done a) => f a t'
    | (t', Panic e) => (t', Panic e)
    end.

Definition logf (lvl : Level) (format : string) (args : list Arg) : R unit :=
  fun t => (t ++ [Logf lvl format args], Done tt).

Definition call {A} (e : Event) (answer : Trace -> A) : R A :=
  fun t => (t ++ [e], Done (answer t)).

(** A call whose results the handler does not read. *)
Definition call_ (e : Event) : R unit := call e (fun _ => tt).

Declare Scope reporter_scope.
Notation "x <- m ;; k" := (bind m (fun x => k))
  (at level 61, m at next level, right associativity) : reporter_scope.
Notation "m ;; k" := (bind m (fun _ => k))
  (at level 61, right associativity) : reporter_scope.
Open Scope reporter_scope.

Section Code.
Variable env : Env.

Definition handleConnectedBlocks (event : BlockEvent) : R unit :=
  signer <- call Call_MustGetAddr (MustGetAddr env) ;;
  (* get the block from hash *)
  let blockHash := BlockHash env (EventHeader event) in
  got <- call (Call_GetBlockByHash blockHash)
              (fun t => GetBlockByHash env t blockHash) ;;
  match got with
  | Err err =>
      logf LvlError "Failed to get block %v from BTC client: %v"
           [AHash blockHash; AErr err] ;;
      panic err
  | Ok (ib, mBlock) =>
      (* get cache tip *)
      cacheTip <- call Call_Tip (Tip env) ;;
      match cacheTip with
      | None =>
          logf LvlWarn "Cache is empty, restart bootstrap process" [] ;;
          call_ (Call_Bootstrap true)
      | Some cacheTip =>
          let parentHash := PrevBlock (MsgHeader mBlock) in
          if negb (Hash_eqb parentHash (BlockHash env (Header cacheTip)))
          then
            logf LvlWarn "Cache is not up-to-date, restart bootstrap process" [] ;;
            call_ (Call_Bootstrap true)
          else
            (* otherwise, add the block to the cache *)
            call_ (Call_Add ib) ;;
            (* extracts and submits headers for each block in ibs *)
            call_ (Call_processHeaders signer [ib]) ;;
            (* extracts and submits checkpoints for each block in ibs *)
            call_ (Call_processCheckpoints signer [ib])
      end
  end.

Definition handleDisconnectedBlocks (event : BlockEvent) : R unit :=
  (* get cache tip *)
  cacheTip <- call Call_Tip (Tip env) ;;
  match cacheTip with
  | None =>
      logf LvlWarn "Cache is empty, restart bootstrap process" [] ;;
      call_ (Call_Bootstrap true)
  | Some cacheTip =>
      if negb (Hash_eqb (BlockHash env (EventHeader event))
                        (BlockHash env (Header cacheTip)))
      then
        logf LvlWarn "Cache is not up-to-date, restart bootstrap process" [] ;;
        call_ (Call_Bootstrap true)
      else
        (* otherwise, remove the block from the cache *)
        removed <- call Call_RemoveLast (RemoveLast env) ;;
        match removed with
        | Err err =>
            logf LvlWarn
              "Failed to remove last block from cache: %v, restart bootstrap process"
              [AErr err] ;;
            call_ (Call_Bootstrap true) ;;
            panic err
        | Ok _ => ret tt
        end
  end.

(** The dispatch on the event's type in [blockEventHandler]. *)
Definition onBlockEvent (event : BlockEvent) : R unit :=
  match Type_ event with
  | BlockConnected => handleConnectedBlocks event
  | BlockDisconnected => handleDisconnectedBlocks event
  end.

End Code.

End Reporter.

(* ================================================================= *)
(** ** Classes of submitter events *)

Module SubmitterTrace.
Import wire Submitter.
Open Scope string_scope.
Open Scope list_scope.

(** A step whose every event satisfies [p]. *)
Definition emits {A} (p : Event -> bool) (m : M A) : Prop :=
  forall t, exists ev, fst (m t) = t ++ ev /\ forallb p ev = true.

Definition isLog (e : Event) : bool :=
  match e with Logf _ _ _ => true | _ => false end.

Definition isListUnspent (e : Event) : bool :=
  match e with Call_ListUnspent => true | _ => false end.

(** What the selection may do: log, and ask the wallet for its list. *)
Definition selectionEvent (e : Event) : bool := isLog e || isListUnspent e.

(** What a build may do: everything but a broadcast. *)
Definition buildEvent (e : Event) : bool := negb (isSend e).

(** The line [SubmitCkpt] logs on success, and the line the worker logs
    on failure. *)
Definition isSuccessLog (e : Event) : bool :=
  match e with
  | Logf LvlInfo format _ =>
      String.eqb format "Successfully submitted a raw checkpoint for epoch %v"
  | _ => false
  end.

Definition isFailureLog (e : Event) : bool :=
  match e with
  | Logf LvlError format _ =>
      String.eqb format "Failed to submit the raw checkpoint for %v: %v"
  | _ => false
  end.

Definition isOutcomeLog (e : Event) : bool := isSuccessLog e || isFailureLog e.

Definition outcomes (ev : Trace) : nat := List.length (filter isOutcomeLog ev).

(** The checkpoints the worker receives before it is told to quit. *)
Fixpoint beforeQuit (inbox : list Selected) : list RawCheckpointWithMeta :=
  match inbox with
  | [] => []
  | FromRawCkptChan ckpt :: inbox' => ckpt :: beforeQuit inbox'
  | FromQuit :: _ => []
  end.

(** [DumpPrivKey] called with no address: the call a build makes when
    the address of its UTXO could not be decoded. *)
Definition isKeyOfNoAddress (e : Event) : bool :=
  match e with Call_DumpPrivKey None => true | _ => false end.

Definition isSealed (ckpt : RawCheckpointWithMeta) : bool :=
  CheckpointStatus_eqb (Status ckpt) Sealed.

(** A quit signal, or a checkpoint the worker acts on. *)
Definition actedOn (sel : Selected) : bool :=
  match sel with
  | FromRawCkptChan ckpt => isSealed ckpt
  | FromQuit => true
  end.

(** [tx] spends output 0 of the transaction [u] belongs to and carries
    [data] in its first output. *)
Definition carries (env : Env) (tx : MsgTx) (u : ListUnspentResult)
  (data : bytes) : Prop :=
  exists hash script,
    NewHashFromStr env (TxID u) = Ok hash /\
    NullDataScript env data = Ok script /\
    map PreviousOutPoint (TxIn tx) = [ {| Hash := hash; Index := 0 |} ] /\
    nth_error (TxOut tx) 0 = Some (NewTxOut 0 script).

(** The wallet accepted the passphrase at some point before index [i] of
    the events [ev] that follow the history [t]. *)
Definition unlockedBefore (env : Env) (s : Submitter) (t ev : Trace) (i : nat)
  : Prop :=
  exists j,
    (j < i)%nat /\
    nth_error ev j =
      Some (Call_WalletPassphrase (WalletPassword (btcWallet_Cfg s))
                                  (WalletLockTime (btcWallet_Cfg s))) /\
    WalletPassphrase env (t ++ firstn j ev)
      (WalletPassword (btcWallet_Cfg s)) (WalletLockTime (btcWallet_Cfg s)) = Ok tt.

End SubmitterTrace.

(* ================================================================= *)
(** ** The reporter's event loop *)

Module ReporterLoops.
Import Reporter.
Open Scope string_scope.
Open Scope list_scope.

(** What one turn of the [select] of [blockEventHandler] yields: an
    event, the news that the channel is closed, or the quit signal. *)
Inductive Selected :=
| FromBlockEventChan (event : BlockEvent)
| ChanClosed
| FromQuit.

(** How a run of the loop over a finite run of [select] outcomes ends:
    it returned, it waits in [select], or a handler panicked. *)
Inductive LoopEnd :=
| Returned
| Waiting
| Panicked (e : error).

Fixpoint blockEventHandler (env : Env) (inbox : list Selected) (t : Trace)
  : Trace * LoopEnd :=
  match inbox with
  | [] => (t, Waiting)
  | FromBlockEventChan event :: inbox' =>
      match onBlockEvent env event t with
      | (t', Done _) => blockEventHandler env inbox' t'
      | (t', Panic e) => (t', Panicked e)
      end
  | ChanClosed :: _ =>
      (t ++ [Logf LvlError "Block event channel is closed" []], Returned)
  | FromQuit :: _ => (t, Returned)
  end.

(** *** Reading the reporter's trace *)

(** A call that changes the cache or hands a block to extraction. *)
Definition isCacheStep (e : Event) : bool :=
  match e with
  | Call_Add _ | Call_processHeaders _ _ | Call_processCheckpoints _ _ => true
  | _ => false
  end.

(** Every [Add] is followed at once by the header extraction and then
    the checkpoint extraction of the block added, and neither extraction
    occurs anywhere else. *)
Inductive Grouped : Trace -> Prop :=
| Grouped_nil : Grouped []
| Grouped_add ib signer rest :
    Grouped rest ->
    Grouped (Call_Add ib :: Call_processHeaders signer [ib]
               :: Call_processCheckpoints signer [ib] :: rest)
| Grouped_other e rest :
    isCacheStep e = false -> Grouped rest -> Grouped (e :: rest).

(** A call that changes what the cache holds. *)
Definition isCacheAction (e : Event) : bool :=
  match e with
  | Call_Add _ | Call_RemoveLast | Call_Bootstrap _ => true
  | _ => false
  end.

Definition cacheActions (ev : Trace) : nat :=
  List.length (filter isCacheAction ev).

Definition isRemoveLast (e : Event) : bool :=
  match e with Call_RemoveLast => true | _ => false end.

Definition isFetch (e : Event) : bool :=
  match e with Call_GetBlockByHash _ => true | _ => false end.

Definition fetches (ev : Trace) : nat := List.length (filter isFetch ev).

Definition isEvent (sel : Selected) : bool :=
  match sel with FromBlockEventChan _ => true | _ => false end.

Definition isMutation (e : Event) : bool :=
  match e with
  | Call_Add _ | Call_RemoveLast => true
  | _ => false
  end.

(** [Guarded env hist ev]: in the events [ev] that follow the history
    [hist], every [Add] and every [RemoveLast] comes right after a [Tip]
    call, and that call returned a block. *)
Inductive Guarded (env : Env) : Trace -> Trace -> Prop :=
| Guarded_nil hist : Guarded env hist []
| Guarded_mutation hist cacheTip e rest :
    isMutation e = true ->
    Tip env hist = Some cacheTip ->
    Guarded env (hist ++ [Call_Tip; e]) rest ->
    Guarded env hist (Call_Tip :: e :: rest)
| Guarded_other hist e rest :
    isMutation e = false ->
    Guarded env (hist ++ [e]) rest ->
    Guarded env hist (e :: rest).

End ReporterLoops.

(* ================================================================= *)
(** ** The reporter's ZMQ loop *)

Module ZmqLoop.
Import Reporter ReporterLoops.
Open Scope string_scope.
Open Scope list_scope.

(** [zmq.SequenceMsg]: its fields [Hash] and [Event]. *)
Record SequenceMsg := {
  MsgHash : bytes;
  MsgEvent : EventType }.

Inductive ZSelected :=
| FromZmqSequenceMsgChan (msg : SequenceMsg)
| ZmqChanClosed
| ZmqFromQuit.

(** The loop logs lines that the handlers of [Reporter] have no form
    for; its trace holds them beside the events of [Reporter]. *)
Inductive ZLevel := ZLvlInfo | ZLvlError.

Inductive ZArg :=
| ZStr (s : string)
| ZHash (h : bytes)
| ZErr (e : error).

Inductive ZEvent :=
| Core (e : Event)
| Zlogf (lvl : ZLevel) (format : string) (args : list ZArg).

Definition ZTrace := list ZEvent.

(** The events of [Reporter] in a trace of the loop: the history its
    collaborators answer from. *)
Definition core (zt : ZTrace) : Trace :=
  flat_map (fun e => match e with Core e => [e] | Zlogf _ _ _ => [] end) zt.

(** A handler of [Reporter] run from inside the loop: what it adds to the
    history is added to the trace of the loop. *)
Definition run (h : R unit) (zt : ZTrace) : ZTrace * Outcome unit :=
  let (t', o) := h (core zt) in
  (zt ++ map Core (skipn (List.length (core zt)) t'), o).

(** The two library functions that turn the hash of a message into a
    [chainhash.Hash]. *)
Record Codec := {
  hex_EncodeToString : bytes -> string;
  NewHashFromStr : string -> result bytes }.

Section Code.
Variable env : Env.
Variable codec : Codec.

(** The [case msg, open := <-r.btcClient.ZmqSequenceMsgChan] branch for
    an open channel. *)
Definition onSequenceMsg (msg : SequenceMsg) (zt : ZTrace)
  : ZTrace * Outcome unit :=
  let blockHashStr := hex_EncodeToString codec (MsgHash msg) in
  match NewHashFromStr codec blockHashStr with
  | Err err =>
      (zt ++ [Zlogf ZLvlError "Failed to parse block hash %v: %v"
                [ZStr blockHashStr; ZErr err]], Panic err)
  | Ok blockHash =>
      let zt1 :=
        zt ++ [Zlogf ZLvlInfo "Received zmq sequence message for block %v"
                 [ZStr blockHashStr]] in
      let zt2 := zt1 ++ [Core (Call_GetBlockByHash blockHash)] in
      match GetBlockByHash env (core zt1) blockHash with
      | Err err =>
          (zt2 ++ [Zlogf ZLvlError "Failed to get block %v from BTC client: %v"
                     [ZHash blockHash; ZErr err]], Panic err)
      | Ok (ib, _) =>
          let blockEvent :=
            {| Type_ := MsgEvent msg;
               EventHeight := Height ib;
               EventHeader := Header ib |} in
          match run (onBlockEvent env blockEvent) zt2 with
          | (zt3, Done _) =>
              (zt3 ++ [Zlogf ZLvlInfo "Sent block event for block %v"
                         [ZStr blockHashStr]], Done tt)
          | (zt3, Panic e) => (zt3, Panic e)
          end
      end
  end.

Fixpoint zmqSequenceMessageHandler (inbox : list ZSelected) (zt : ZTrace)
  : ZTrace * LoopEnd :=
  match inbox with
  | [] => (zt, Waiting)
  | FromZmqSequenceMsgChan msg :: inbox' =>
      match onSequenceMsg msg zt with
      | (zt', Done _) => zmqSequenceMessageHandler inbox' zt'
      | (zt', Panic e) => (zt', Panicked e)
      end
  | ZmqChanClosed :: _ =>
      (zt ++ [Zlogf ZLvlError "ZMQ sequence message channel is closed" []],
       Returned)
  | ZmqFromQuit :: _ => (zt, Returned)
  end.

End Code.

End ZmqLoop.

(* ================================================================= *)
(** ** Orders on slices and on amounts *)

Module SliceOrder.
Import Submitter.

(** [x] may stand before [y] in a slice sorted by [less]: [y] is not
    [less] than [x]. *)
Definition before {A} (less : A -> A -> bool) (x y : A) : Prop :=
  less y x = false.

(** An unspent output the wallet can spend, whose amount is a number. *)
Definition fundable (u : ListUnspentResult) : Prop :=
  Spendable u = true /\ PrimFloat.is_nan (Amount u) = false.

End SliceOrder.

(* ================================================================= *)
(** ** Concrete collaborators, for running the code *)

Module Scenario.
Import wire Submitter.
Open Scope string_scope.
Open Scope list_scope.

Definition utxo (txid : string) (vout : Z) (amount : float64)
  (spendable : bool) : ListUnspentResult :=
  {| TxID := txid; Vout := vout; Address := "miner"; Account := "";
     ScriptPubKey := "76a914"; RedeemScript := ""; Amount := amount;
     Confirmations := 6; Spendable := spendable |}.
Arguments utxo txid%_string vout%_Z amount%_float spendable%_bool.

(** A wallet holding [utxos] whose calls all succeed, a node answering a
    broadcast by [send], and libraries that accept every input. *)
Definition wallet (utxos : list ListUnspentResult)
  (send : Trace -> MsgTx -> bool -> result bytes) : Env :=
  {| ListUnspent := fun _ => Ok utxos;
     GetRawChangeAddress := fun _ _ => Ok "change";
     WalletPassphrase := fun _ _ _ => Ok tt;
     DumpPrivKey := fun _ _ => Ok {| PrivKey := [x01] |};
     SendRawTransaction := send;
     Marshal := fun b => Ok b;
     EncodeCheckpointData := fun _ _ _ _ _ _ _ => Ok ([x01], [x02]);
     NewHashFromStr := fun id => Ok (list_byte_of_string id);
     NullDataScript := fun d => Ok (x6a :: d);
     hex_DecodeString := fun _ => Ok [x76; xa9; x14];
     PayToAddrScript := fun _ => Ok [x76; xa9];
     DecodeAddress := fun a _ => Ok a;
     txscript_SignatureScript := fun _ _ _ _ _ _ => Ok [x30];
     Serialize := fun _ => Ok [];
     TxHash := fun tx => List.concat (map (fun o => PkScript o) (TxOut tx));
     pdqsort := fun _ l => exist _ l (Permutation_refl l) |}.

(** A node that accepts every transaction. *)
Definition accept : Trace -> MsgTx -> bool -> result bytes :=
  fun _ tx _ => Ok (List.concat (map (fun o => PkScript o) (TxOut tx))).

(** A node that accepts the first transaction it is sent and refuses
    every later one. *)
Definition accept_first_only : Trace -> MsgTx -> bool -> result bytes :=
  fun t tx _ =>
    if existsb (fun e => match e with Call_SendRawTransaction _ _ => true
                                    | _ => false end) t
    then Err "rejected"
    else Ok (List.concat (map (fun o => PkScript o) (TxOut tx))).

(** A submitter paying [fee] satoshi per transaction. *)
Definition submitter (fee : Z) : Submitter :=
  {| Cfg := {| GetTag := [x62; x62; x6e]; GetVersion := 0;
               NetParams := "simnet" |};
     btcWallet_Cfg := {| TxFee := fee; WalletPassword := "pass";
                         WalletLockTime := 10 |};
     account := "default";
     submitterAddress := [x0a] |}.

Definition checkpoint (epoch : Z) (st : CheckpointStatus) : RawCheckpointWithMeta :=
  {| Ckpt := {| EpochNum := epoch; LastCommitHash := [x11]; Bitmap := [xff];
                BlsMultiSig := [x22] |};
     Status := st |}.

End Scenario.

Module ReporterScenario.
Import Reporter.
Open Scope string_scope.
Open Scope list_scope.

(** A block at [height] named [id], built on the block named [prev]. *)
Definition header (prev id : bytes) : BlockHeader :=
  {| Version := 1; PrevBlock := prev; MerkleRoot := id;
     Timestamp := 0; Bits := 0; Nonce := 0 |}.

Definition block (height : Z) (prev id : bytes) : IndexedBlock :=
  {| Height := height; Header := header prev id; Txs := [] |}.

Definition msgBlock (prev id : bytes) : MsgBlock :=
  {| MsgHeader := header prev id; Transactions := [] |}.

Definition connected (height : Z) (prev id : bytes) : BlockEvent :=
  {| Type_ := BlockConnected; EventHeight := height;
     EventHeader := header prev id |}.

Definition disconnected (height : Z) (prev id : bytes) : BlockEvent :=
  {| Type_ := BlockDisconnected; EventHeight := height;
     EventHeader := header prev id |}.

(** A reporter whose cache answers [tip] and [removed], whose Bitcoin
    client answers [fetched]; a block's name stands for its hash. *)
Definition reporter (tip : option IndexedBlock)
  (fetched : result (IndexedBlock * MsgBlock)) (removed : result unit) : Env :=
  {| MustGetAddr := fun _ => "bbn1signer";
     GetBlockByHash := fun _ _ => fetched;
     Tip := fun _ => tip;
     RemoveLast := fun _ => removed;
     BlockHash := fun h => MerkleRoot h |}.

End ReporterScenario.

Module MoreScenarios.
Import wire Submitter Scenario Reporter ZmqLoop.
Open Scope string_scope.
Open Scope list_scope.

(** The wallet of [Scenario.wallet] under a library that cannot decode
    the address of any UTXO, while the wallet still hands out a key when
    asked for the key of no address. *)
Definition wallet_undecodable (utxos : list ListUnspentResult)
  (send : Submitter.Trace -> MsgTx -> bool -> result bytes) : Submitter.Env :=
  let w := wallet utxos send in
  {| ListUnspent := ListUnspent w;
     GetRawChangeAddress := GetRawChangeAddress w;
     WalletPassphrase := WalletPassphrase w;
     DumpPrivKey := DumpPrivKey w;
     SendRawTransaction := SendRawTransaction w;
     Marshal := Marshal w;
     EncodeCheckpointData := EncodeCheckpointData w;
     Submitter.NewHashFromStr := Submitter.NewHashFromStr w;
     NullDataScript := NullDataScript w;
     hex_DecodeString := hex_DecodeString w;
     PayToAddrScript := PayToAddrScript w;
     DecodeAddress := fun _ _ => Err "decoded address is of unknown format";
     txscript_SignatureScript := txscript_SignatureScript w;
     Serialize := Serialize w;
     TxHash := TxHash w;
     pdqsort := pdqsort w |}.

(** A codec under which every message names the block [x6f]. *)
Definition codec : Codec :=
  {| hex_EncodeToString := fun _ => "6f";
     ZmqLoop.NewHashFromStr := fun _ => Ok [x6f] |}.

Definition sequenceMsg (hash : bytes) (ty : EventType) : SequenceMsg :=
  {| MsgHash := hash; MsgEvent := ty |}.

End MoreScenarios.

(* ================================================================= *)
(** * Properties *)

(** ** [sort.Slice] rearranges the slice *)

Section SliceFacts.
Context {A : Type}.
Variable less : A -> A -> bool.

Lemma Swap_adjacent_Permutation (j : nat) :
  forall (l : list A) x y,
    nth_error l (S j) = Some x -> nth_error l j = Some y ->
    Permutation l (Swap l (S j) j).
Proof.
  induction j as [|j IH]; intros l x y Hx Hy.
  - destruct l as [|a [|b l]]; try discriminate.
    unfold Swap. cbn in *. inversion Hx; inversion Hy; subst. apply perm_swap.
  - destruct l as [|a l]; try discriminate.
    change (nth_error l (S j) = Some x) in Hx.
    change (nth_error l j = Some y) in Hy.
    specialize (IH l x y Hx Hy).
    unfold Swap in IH. rewrite Hx, Hy in IH.
    unfold Swap.
    change (nth_error (a :: l) (S (S j))) with (nth_error l (S j)).
    change (nth_error (a :: l) (S j)) with (nth_error l j).
    rewrite Hx, Hy. cbn [update]. apply perm_skip, IH.
Qed.

Lemma sink_Permutation (j : nat) :
  forall l : list A, Permutation l (sink less l j).
Proof.
  induction j as [|j IH]; intros l; cbn [sink]; [reflexivity|].
  destruct (nth_error l (S j)) as [x|] eqn:Hx; [|reflexivity].
  destruct (nth_error l j) as [y|] eqn:Hy; [|reflexivity].
  destruct (less x y); [|reflexivity].
  etransitivity; [eapply Swap_adjacent_Permutation; eassumption | apply IH].
Qed.

Lemma insertionSort_Permutation (l : list A) :
  Permutation l (insertionSort less l).
Proof.
  unfold insertionSort. generalize (seq 1 (List.length l - 1)).
  intros js. revert l.
  induction js as [|j js IH]; intros l; cbn [fold_left]; [reflexivity|].
  etransitivity; [apply sink_Permutation | apply IH].
Qed.

Lemma sort_Slice_Permutation (pdq : LongSort) (l : list A) :
  Permutation l (sort_Slice less pdq l).
Proof.
  unfold sort_Slice. destruct (List.length l <=? maxInsertion)%nat.
  - apply insertionSort_Permutation.
  - exact (proj2_sig (pdq l)).
Qed.

Lemma sort_Slice_length (pdq : LongSort) (l : list A) :
  List.length (sort_Slice less pdq l) = List.length l.
Proof. symmetry. apply Permutation_length, sort_Slice_Permutation. Qed.

End SliceFacts.

(* ================================================================= *)
(** ** UTXO selection *)

Section Selection.
Import wire Submitter Scenario.
Open Scope string_scope.
Open Scope list_scope.

(** After the length check the sorted slice still has its two first
    entries. *)
Lemma ranked_two (env : Env) (l : list ListUnspentResult) :
  (List.length l <? 2)%nat = false ->
  exists u0 u1 rest,
    sort_Slice utxoLess (pdqsort env utxoLess) l = u0 :: u1 :: rest.
Proof.
  intros Hlen. apply Nat.ltb_ge in Hlen.
  pose proof (sort_Slice_length utxoLess (pdqsort env utxoLess) l) as Hl.
  destruct (sort_Slice utxoLess (pdqsort env utxoLess) l) as [|u0 [|u1 rest]];
    cbn in Hl; try lia.
  now exists u0, u1, rest.
Qed.

Lemma getTopTwoUTXOs_wallet_error (env : Env) (s : Submitter) (t : Trace) e :
  ListUnspent env (searched t) = Err e ->
  snd (getTopTwoUTXOs env s t) = Err e.
Proof.
  intros Hl. unfold getTopTwoUTXOs, bind, logf, call.
  fold (searched t). now rewrite Hl.
Qed.

(** The result of [getTopTwoUTXOs] once the wallet has answered, case by
    case. *)
Lemma getTopTwoUTXOs_cases (env : Env) (s : Submitter) (t : Trace) utxos :
  ListUnspent env (searched t) = Ok utxos ->
  let txfee := btcutil.ToBTC (TxFee (btcWallet_Cfg s)) in
  ((List.length utxos < 2)%nat /\
   snd (getTopTwoUTXOs env s t) = Err "insufficient unspent transactions") \/
  (exists u0 u1 rest,
     sort_Slice utxoLess (pdqsort env utxoLess) utxos = u0 :: u1 :: rest /\
     (2 <= List.length utxos)%nat /\
     (((Amount u0 <? txfee)%float = true /\
       snd (getTopTwoUTXOs env s t) = Err "insufficient fees") \/
      ((Amount u0 <? txfee)%float = false /\ (Amount u1 <? txfee)%float = true /\
       snd (getTopTwoUTXOs env s t) = Err "insufficient fees") \/
      ((Amount u0 <? txfee)%float = false /\ (Amount u1 <? txfee)%float = false /\
       snd (getTopTwoUTXOs env s t) = Ok (u0, u1)))).
Proof.
  intros Hl txfee. unfold getTopTwoUTXOs, bind, logf, call, fail, ret.
  fold (searched t). rewrite Hl.
  destruct (List.length utxos <? 2)%nat eqn:Hlen.
  - left. apply Nat.ltb_lt in Hlen. now split.
  - right. destruct (ranked_two env utxos Hlen) as (u0 & u1 & rest & Hs).
    apply Nat.ltb_ge in Hlen.
    exists u0, u1, rest. rewrite Hs. split; [reflexivity|]. split; [exact Hlen|].
    fold txfee.
    destruct (Amount u0 <? txfee)%float; [left; now split|].
    destruct (Amount u1 <? txfee)%float; right; [left|right]; now repeat split.
Qed.

(** Once the wallet has answered with its list of unspent outputs,
    [getTopTwoUTXOs] returns an error exactly when the list has fewer than
    two entries or when, in the slice as [sort.Slice] left it under the
    code's own [less] closure, the entry at index 0 or the entry at
    index 1 has an amount strictly below the fee; the error is
    "insufficient unspent transactions" in the first case and
    "insufficient fees" in the second.  In every other case it returns
    the entries at index 0 and 1 of that slice.  Which entries these are
    is another matter: they need not be the two that rank highest by
    (spendable, amount). *)
Theorem getTopTwoUTXOs_errors_exactly_when
  (env : Env) (s : Submitter) (t : Trace) (utxos : list ListUnspentResult) :
  ListUnspent env (searched t) = Ok utxos ->
  let ranked := sort_Slice utxoLess (pdqsort env utxoLess) utxos in
  let txfee := btcutil.ToBTC (TxFee (btcWallet_Cfg s)) in
  let low (i : nat) :=
    exists u, nth_error ranked i = Some u /\ (Amount u <? txfee)%float = true in
  let r := snd (getTopTwoUTXOs env s t) in
  ((exists e, r = Err e) <-> (List.length utxos < 2)%nat \/ low 0%nat \/ low 1%nat)
  /\ ((List.length utxos < 2)%nat -> r = Err "insufficient unspent transactions")
  /\ ((2 <= List.length utxos)%nat -> low 0%nat \/ low 1%nat ->
      r = Err "insufficient fees")
  /\ (~ ((List.length utxos < 2)%nat \/ low 0%nat \/ low 1%nat) ->
      exists u0 u1,
        nth_error ranked 0 = Some u0 /\ nth_error ranked 1 = Some u1 /\
        r = Ok (u0, u1)).
Proof.
  intros Hl ranked txfee low r.
  destruct (getTopTwoUTXOs_cases env s t utxos Hl)
    as [[Hlen Hr] | (u0 & u1 & rest & Hs & Hlen & Hcase)];
    fold r in Hr || fold r txfee in Hcase.
  - repeat split.
    + intros _. now left.
    + intros _. now exists "insufficient unspent transactions".
    + intros _. exact Hr.
    + intros Hge. lia.
    + intros Hn. exfalso. apply Hn. now left.
  - assert (Hlow0 : low 0%nat <-> (Amount u0 <? txfee)%float = true).
    { unfold low, ranked. rewrite Hs. cbn [nth_error]. split.
      - intros (u & Hu & Hlt). now inversion Hu; subst.
      - intros Hlt. now exists u0. }
    assert (Hlow1 : low 1%nat <-> (Amount u1 <? txfee)%float = true).
    { unfold low, ranked. rewrite Hs. cbn [nth_error]. split.
      - intros (u & Hu & Hlt). now inversion Hu; subst.
      - intros Hlt. now exists u1. }
    destruct Hcase as [[H0 Hr] | [(H0 & H1 & Hr) | (H0 & H1 & Hr)]].
    + repeat split.
      * intros _. right. left. now apply Hlow0.
      * intros _. now exists "insufficient fees".
      * intros Hlt. lia.
      * intros _ _. exact Hr.
      * intros Hn. exfalso. apply Hn. right. left. now apply Hlow0.
    + repeat split.
      * intros _. right. right. now apply Hlow1.
      * intros _. now exists "insufficient fees".
      * intros Hlt. lia.
      * intros _ _. exact Hr.
      * intros Hn. exfalso. apply Hn. right. right. now apply Hlow1.
    + repeat split.
      * intros [e He]. rewrite Hr in He. discriminate.
      * intros [Hlt | [Hl0 | Hl1]]; [lia | |].
        -- apply Hlow0 in Hl0. congruence.
        -- apply Hlow1 in Hl1. congruence.
      * intros Hlt. lia.
      * intros _ [Hl0 | Hl1].
        -- apply Hlow0 in Hl0. congruence.
        -- apply Hlow1 in Hl1. congruence.
      * intros _. exists u0, u1. unfold ranked. rewrite Hs. now repeat split.
Qed.

Lemma getTopTwoUTXOs_errors_exactly_when_witness :
  ListUnspent
    (wallet [utxo "a" 0 1 true; utxo "b" 0 5 true; utxo "c" 0 3 true] accept)
    (searched []) =
    Ok [utxo "a" 0 1 true; utxo "b" 0 5 true; utxo "c" 0 3 true] /\
  snd (getTopTwoUTXOs
         (wallet [utxo "a" 0 1 true; utxo "b" 0 5 true; utxo "c" 0 3 true] accept)
         (submitter 100000) []) =
    Ok (utxo "b" 0 5 true, utxo "c" 0 3 true).
Proof.
  split; [reflexivity|].
  destruct (getTopTwoUTXOs_errors_exactly_when
              (wallet [utxo "a" 0 1 true; utxo "b" 0 5 true; utxo "c" 0 3 true]
                      accept)
              (submitter 100000) []
              [utxo "a" 0 1 true; utxo "b" 0 5 true; utxo "c" 0 3 true] eq_refl)
    as (_ & _ & _ & H).
  destruct H as (u0 & u1 & H0 & H1 & Hr).
  - intros [Hlt | [(u & Hu & Hlow) | (u & Hu & Hlow)]].
    + cbn in Hlt. lia.
    + vm_compute in Hu. inversion Hu; subst. vm_compute in Hlow. discriminate.
    + vm_compute in Hu. inversion Hu; subst. vm_compute in Hlow. discriminate.
  - vm_compute in H0, H1. inversion H0; inversion H1; subst. exact Hr.
Defined.

(** C5.  Two runs of [getTopTwoUTXOs] to which the wallet answers with
    the same list, under the same fee, return the same result, whatever
    else happened before either run: the result depends on the list, the
    sort and the fee only. *)
Theorem getTopTwoUTXOs_same_list_same_pair
  (env : Env) (s1 s2 : Submitter) (t1 t2 : Trace)
  (utxos : list ListUnspentResult) :
  TxFee (btcWallet_Cfg s1) = TxFee (btcWallet_Cfg s2) ->
  ListUnspent env (searched t1) = Ok utxos ->
  ListUnspent env (searched t2) = Ok utxos ->
  snd (getTopTwoUTXOs env s1 t1) = snd (getTopTwoUTXOs env s2 t2).
Proof.
  intros Hfee H1 H2.
  unfold getTopTwoUTXOs, bind, logf, call, fail, ret.
  fold (searched t1) (searched t2). rewrite H1, H2, Hfee.
  destruct (List.length utxos <? 2)%nat; [reflexivity|].
  destruct (sort_Slice utxoLess (pdqsort env utxoLess) utxos) as [|u0 [|u1 rest]];
    try reflexivity.
  destruct (Amount u0 <? _)%float; [reflexivity|].
  destruct (Amount u1 <? _)%float; reflexivity.
Qed.

Lemma getTopTwoUTXOs_same_list_same_pair_witness :
  snd (getTopTwoUTXOs
         (wallet [utxo "a" 0 1 true; utxo "b" 0 5 true; utxo "c" 0 3 true] accept)
         (submitter 100000) []) =
  snd (getTopTwoUTXOs
         (wallet [utxo "a" 0 1 true; utxo "b" 0 5 true; utxo "c" 0 3 true] accept)
         (submitter 100000)
         [Call_ListUnspent; Call_GetRawChangeAddress "default"]).
Proof.
  apply (getTopTwoUTXOs_same_list_same_pair
           (wallet [utxo "a" 0 1 true; utxo "b" 0 5 true; utxo "c" 0 3 true] accept)
           (submitter 100000) (submitter 100000)
           [] [Call_ListUnspent; Call_GetRawChangeAddress "default"]
           [utxo "a" 0 1 true; utxo "b" 0 5 true; utxo "c" 0 3 true]);
    reflexivity.
Defined.

(** The two outputs selected are entries of the list the wallet
    returned. *)
Theorem getTopTwoUTXOs_returns_wallet_entries
  (env : Env) (s : Submitter) (t t' : Trace)
  (utxos : list ListUnspentResult) (u0 u1 : ListUnspentResult) :
  ListUnspent env (searched t) = Ok utxos ->
  getTopTwoUTXOs env s t = (t', Ok (u0, u1)) ->
  In u0 utxos /\ In u1 utxos.
Proof.
  intros Hl Hrun. apply (f_equal snd) in Hrun. cbn [snd] in Hrun.
  destruct (getTopTwoUTXOs_cases env s t utxos Hl)
    as [[_ Hr] | (v0 & v1 & rest & Hs & _ & Hcase)].
  - congruence.
  - pose proof (sort_Slice_Permutation utxoLess (pdqsort env utxoLess) utxos) as Hp.
    rewrite Hs in Hp. apply Permutation_sym in Hp.
    destruct Hcase as [[_ Hr] | [(_ & _ & Hr) | (_ & _ & Hr)]]; try congruence.
    rewrite Hr in Hrun. inversion Hrun; subst. split.
    + apply (Permutation_in _ Hp). now left.
    + apply (Permutation_in _ Hp). right. now left.
Qed.

Lemma getTopTwoUTXOs_returns_wallet_entries_witness :
  In (utxo "b" 0 5 true) [utxo "a" 0 1 true; utxo "b" 0 5 true; utxo "c" 0 3 true] /\
  In (utxo "c" 0 3 true) [utxo "a" 0 1 true; utxo "b" 0 5 true; utxo "c" 0 3 true].
Proof.
  apply (getTopTwoUTXOs_returns_wallet_entries
           (wallet [utxo "a" 0 1 true; utxo "b" 0 5 true; utxo "c" 0 3 true] accept)
           (submitter 100000) []
           (fst (getTopTwoUTXOs
                   (wallet [utxo "a" 0 1 true; utxo "b" 0 5 true; utxo "c" 0 3 true]
                           accept)
                   (submitter 100000) []))).
  - reflexivity.
  - vm_compute. reflexivity.
Defined.

(** The closure given to [sort.Slice] is not the strict weak order the
    library asks for: being unordered by it is not transitive. *)
Lemma utxoLess_not_a_weak_order :
  utxoLess (utxo "a" 0 3 true) (utxo "b" 0 5 false) = false /\
  utxoLess (utxo "b" 0 5 false) (utxo "a" 0 3 true) = false /\
  utxoLess (utxo "b" 0 5 false) (utxo "c" 0 1 true) = false /\
  utxoLess (utxo "c" 0 1 true) (utxo "b" 0 5 false) = false /\
  utxoLess (utxo "a" 0 3 true) (utxo "c" 0 1 true) = true.
Proof. repeat split; reflexivity. Qed.

(** C1 (refuted on the code).  The wallet lists a non-spendable output
    of 5 BTC before a spendable one of 1 BTC: the selection returns them
    in that order, the non-spendable one first.  It lists two
    non-spendable outputs of 1 BTC and 5 BTC: the selection returns them
    in that order, the smaller amount first.  Neither pair is in the
    order (spendable, amount) descending. *)
Theorem getTopTwoUTXOs_not_ranked :
  snd (getTopTwoUTXOs
         (wallet [utxo "a" 0 5 false; utxo "b" 0 1 true] accept)
         (submitter 100000) []) =
    Ok (utxo "a" 0 5 false, utxo "b" 0 1 true) /\
  rankedBefore (utxo "a" 0 5 false) (utxo "b" 0 1 true) = false /\
  snd (getTopTwoUTXOs
         (wallet [utxo "c" 0 1 false; utxo "d" 0 5 false] accept)
         (submitter 100000) []) =
    Ok (utxo "c" 0 1 false, utxo "d" 0 5 false) /\
  rankedBefore (utxo "c" 0 1 false) (utxo "d" 0 5 false) = false.
Proof. repeat split; vm_compute; reflexivity. Qed.

(** C4 (refuted on the code).  The fee is compared with the two entries
    the sort leaves first, which are not the two that rank highest by
    (spendable, amount).  Under a fee of 0.001 BTC:
    - the wallet lists a spendable output of 0.00006103515625 BTC, a non-spendable
      one of 5 BTC, and spendable ones of 3 BTC and 2 BTC.  The two
      highest-ranked entries are those of 3 BTC and 2 BTC, neither below
      the fee, and the selection fails with "insufficient fees";
    - the wallet lists non-spendable outputs of 5 BTC and 4 BTC and a
      spendable one of 0.00006103515625 BTC.  The highest-ranked entry is the
      spendable one, below the fee, and the selection returns the two
      non-spendable outputs without error. *)
Theorem getTopTwoUTXOs_fee_check_misses_top_ranked :
  snd (getTopTwoUTXOs
         (wallet [utxo "s0" 0 0.00006103515625 true; utxo "n1" 0 5 false;
                  utxo "s1" 0 3 true; utxo "s2" 0 2 true] accept)
         (submitter 100000) []) = Err "insufficient fees" /\
  forallb (rankedBefore (utxo "s1" 0 3 true))
          [utxo "s0" 0 0.00006103515625 true; utxo "n1" 0 5 false;
           utxo "s1" 0 3 true; utxo "s2" 0 2 true] = true /\
  forallb (rankedBefore (utxo "s2" 0 2 true))
          [utxo "s0" 0 0.00006103515625 true; utxo "n1" 0 5 false;
           utxo "s2" 0 2 true] = true /\
  (Amount (utxo "s1" 0 3 true) <? btcutil.ToBTC 100000%Z)%float = false /\
  (Amount (utxo "s2" 0 2 true) <? btcutil.ToBTC 100000%Z)%float = false /\
  snd (getTopTwoUTXOs
         (wallet [utxo "n1" 0 5 false; utxo "n2" 0 4 false;
                  utxo "s0" 0 0.00006103515625 true] accept)
         (submitter 100000) []) =
    Ok (utxo "n1" 0 5 false, utxo "n2" 0 4 false) /\
  forallb (rankedBefore (utxo "s0" 0 0.00006103515625 true))
          [utxo "n1" 0 5 false; utxo "n2" 0 4 false;
           utxo "s0" 0 0.00006103515625 true] = true /\
  (Amount (utxo "s0" 0 0.00006103515625 true) <? btcutil.ToBTC 100000%Z)%float = true.
Proof. repeat split; vm_compute; reflexivity. Qed.

End Selection.

(* ================================================================= *)
(** ** Building a transaction *)

Section Building.
Import wire Submitter Scenario.
Open Scope string_scope.
Open Scope list_scope.

(** Unfolds one run of the code in [H] and splits on the next answer the
    run depends on. *)
Ltac unfold_run H :=
  unfold bind, lift, call, logf, ret, fail in H; cbv beta iota in H.

Ltac next_answer H :=
  match type of H with
  | context [match ?x with _ => _ end] =>
      lazymatch x with
      | context [match _ with _ => _ end] => fail
      | _ => destruct x eqn:?
      end
  end; cbv beta iota in H; try discriminate H.

(** A successful build, step by step: every library and wallet call it
    made succeeded, and the transaction is the one put together from
    their answers. *)
Lemma buildTxWithData_Ok (env : Env) (s : Submitter)
  (utxo : ListUnspentResult) (data : bytes) (t t' : Trace) (tx : MsgTx) :
  buildTxWithData env s utxo data t = (t', Ok tx) ->
  exists hash dataScript changeScript amount sig,
    NewHashFromStr env (TxID utxo) = Ok hash /\
    NullDataScript env data = Ok dataScript /\
    btcutil.NewAmount (Amount utxo) = Ok amount /\
    tx = {| Version := TxVersion;
            TxIn := [ {| PreviousOutPoint := {| Hash := hash; Index := 0 |};
                         SignatureScript := sig;
                         Witness := [];
                         Sequence := MaxTxInSequenceNum |} ];
            TxOut := [ NewTxOut 0 dataScript;
                       NewTxOut (wrap64 (amount - TxFee (btcWallet_Cfg s)))
                                changeScript ];
            LockTime := 0 |}.
Proof.
  intros H. unfold buildTxWithData in H. unfold_run H.
  repeat next_answer H;
    inversion H; subst; clear H;
    do 5 eexists; repeat split; try eassumption; reflexivity.
Qed.

(** C3.  A transaction built by [buildTxWithData] has one input, and that
    input spends output 0 of the transaction named by the UTXO's [TxID]:
    the UTXO's own output index [Vout] is not read (the build is the same
    whatever [Vout] is), so when [Vout] is not 0 the outpoint that holds
    the funds is not among the inputs. *)
Theorem buildTxWithData_spends_output_zero (env : Env) (s : Submitter)
  (utxo : ListUnspentResult) (data : bytes) (t t' : Trace) (tx : MsgTx) :
  buildTxWithData env s utxo data t = (t', Ok tx) ->
  exists hash,
    NewHashFromStr env (TxID utxo) = Ok hash /\
    map PreviousOutPoint (TxIn tx) = [ {| Hash := hash; Index := 0 |} ] /\
    (forall v, buildTxWithData env s (withVout v utxo) data t = (t', Ok tx)) /\
    (Vout utxo <> 0 ->
     ~ In {| Hash := hash; Index := Vout utxo |} (map PreviousOutPoint (TxIn tx))).
Proof.
  intros H.
  destruct (buildTxWithData_Ok env s utxo data t t' tx H)
    as (hash & dataScript & changeScript & amount & sig & Hh & _ & _ & Htx).
  exists hash. split; [exact Hh|]. split; [now rewrite Htx|]. split.
  - intros v. exact H.
  - intros Hv Hin. rewrite Htx in Hin. cbn in Hin.
    destruct Hin as [Heq | []]. inversion Heq. congruence.
Qed.

Lemma buildTxWithData_spends_output_zero_witness :
  exists t' tx,
    buildTxWithData (wallet [] accept) (submitter 100000)
      (utxo "a" 3 1 true) [x01] [] = (t', Ok tx) /\
    map PreviousOutPoint (TxIn tx) = [ {| Hash := ["a"%byte]; Index := 0 |} ] /\
    ~ In {| Hash := ["a"%byte]; Index := 3 |} (map PreviousOutPoint (TxIn tx)).
Proof.
  destruct (buildTxWithData (wallet [] accept) (submitter 100000)
              (utxo "a" 3 1 true) [x01] []) as [t' [tx|e]] eqn:Hrun;
    [|vm_compute in Hrun; discriminate Hrun].
  exists t', tx. split; [reflexivity|].
  destruct (buildTxWithData_spends_output_zero _ _ _ _ _ _ _ Hrun)
    as (hash & Hh & Hin & _ & Hout).
  vm_compute in Hh. inversion Hh; subst hash. split; [exact Hin|].
  apply Hout. cbn. discriminate.
Defined.

End Building.

(* ================================================================= *)
(** ** Submitting a checkpoint *)

Section Submission.
Import wire Submitter Scenario.
Open Scope string_scope.
Open Scope list_scope.

Ltac unfold_goal :=
  unfold bind, lift, call, logf, ret, fail; cbv beta iota.

Ltac next_goal_answer :=
  match goal with
  | |- context [match ?x with _ => _ end] =>
      lazymatch x with
      | context [match _ with _ => _ end] => fail
      | _ => destruct x eqn:?
      end
  end; cbv beta iota.

Ltac use_answers :=
  repeat match goal with
         | H : SendRawTransaction _ _ _ _ = _ |- _ => rewrite H
         end.

Ltac prefix_cases k :=
  do 26 (destruct k as [|k]; [cbn; use_answers; cbn; lia|]);
  cbn; use_answers; cbn; lia.

(** C8.  One run of [ConvertCkptToTwoTxAndSubmit] only adds events [ev]
    to the trace, and in them:
    - at every moment the number of transaction builds started is at
      most one more than the number of broadcasts the node has accepted,
      so the second build starts only after the first transaction was
      broadcast and accepted;
    - there are at most two builds and at most two broadcasts, so
      nothing is broadcast again;
    - when the run returns an error, at most one broadcast was accepted:
      the first transaction may stand alone on the base chain, and the
      error is returned with no further call;
    - when the run returns without error, both broadcasts were accepted;
    - when the node refuses a broadcast, the run ends there and returns
      the node's error. *)
Theorem ConvertCkptToTwoTxAndSubmit_sequential_not_atomic
  (env : Env) (s : Submitter) (ckpt : RawCheckpointWithMeta) (t0 : Trace) :
  exists ev,
    fst (ConvertCkptToTwoTxAndSubmit env s ckpt t0) = t0 ++ ev /\
    (forall k,
       (builds (firstn k ev) <= 1 + accepted env t0 (firstn k ev))%nat) /\
    (builds ev <= 2)%nat /\
    (sends ev <= 2)%nat /\
    (forall e, snd (ConvertCkptToTwoTxAndSubmit env s ckpt t0) = Err e ->
               (accepted env t0 ev <= 1)%nat) /\
    (snd (ConvertCkptToTwoTxAndSubmit env s ckpt t0) = Ok tt ->
     accepted env t0 ev = 2%nat) /\
    (forall tx allowHighFees e,
       last ev Call_ListUnspent = Call_SendRawTransaction tx allowHighFees ->
       SendRawTransaction env (t0 ++ removelast ev) tx allowHighFees = Err e ->
       snd (ConvertCkptToTwoTxAndSubmit env s ckpt t0) = Err e).
Proof.
  unfold ConvertCkptToTwoTxAndSubmit, getTopTwoUTXOs, buildTxWithData, sendTxToBTC.
  unfold_goal.
  repeat next_goal_answer.
  all: cbn [fst snd]; rewrite <- ?app_assoc; cbn [app].
  all: match goal with
       | |- exists ev, ?t ++ ?l = ?t ++ ev /\ _ =>
           exists l; split; [reflexivity|]
       | |- exists ev, ?t = ?t ++ ev /\ _ =>
           exists []; split; [symmetry; apply app_nil_r|]
       end.
  all: cbn in *.
  all: split; [ intros k; prefix_cases k | ].
  all: split; [ cbn; lia | ].
  all: split; [ cbn; lia | ].
  all: split; [ intros ? He; try discriminate He; cbn; use_answers; cbn; lia | ].
  all: split; [ intros He; try discriminate He; cbn; use_answers; cbn; lia | ].
  all: intros tx allowHighFees refusal Hlast Hrefused.
  all: cbn in Hlast; try discriminate Hlast.
  all: inversion Hlast; subst; clear Hlast.
  all: cbn [removelast] in Hrefused.
  all: rewrite <- ?app_assoc in *; cbn [app] in *.
  all: congruence.
Qed.

(** The node accepts the first transaction and refuses the second: the
    procedure returns the node's error, and the first transaction stays
    broadcast. *)
Lemma ConvertCkptToTwoTxAndSubmit_sequential_not_atomic_witness :
  snd (ConvertCkptToTwoTxAndSubmit
         (wallet [utxo "a" 0 1 true; utxo "b" 0 5 true; utxo "c" 0 3 true]
                 accept_first_only)
         (submitter 100000) (checkpoint 7 Sealed) []) = Err "rejected" /\
  exists ev,
    fst (ConvertCkptToTwoTxAndSubmit
           (wallet [utxo "a" 0 1 true; utxo "b" 0 5 true; utxo "c" 0 3 true]
                   accept_first_only)
           (submitter 100000) (checkpoint 7 Sealed) []) = ev /\
    (accepted (wallet [utxo "a" 0 1 true; utxo "b" 0 5 true; utxo "c" 0 3 true]
                      accept_first_only) [] ev <= 1)%nat /\
    (1 <= accepted (wallet [utxo "a" 0 1 true; utxo "b" 0 5 true; utxo "c" 0 3 true]
                           accept_first_only) [] ev)%nat /\
    builds ev = 2%nat /\ sends ev = 2%nat.
Proof.
  split; [vm_compute; reflexivity|].
  destruct (ConvertCkptToTwoTxAndSubmit_sequential_not_atomic
              (wallet [utxo "a" 0 1 true; utxo "b" 0 5 true; utxo "c" 0 3 true]
                      accept_first_only)
              (submitter 100000) (checkpoint 7 Sealed) [])
    as (ev & Hfst & _ & _ & _ & Herr & _ & _).
  exists ev. cbn [app] in Hfst. split; [exact Hfst|]. split.
  - apply (Herr "rejected"). vm_compute. reflexivity.
  - vm_compute in Hfst. subst ev. vm_compute. repeat split; lia.
Defined.

End Submission.

(* ================================================================= *)
(** ** The sealed-checkpoint worker *)

Section Worker.
Import wire Submitter Scenario.
Open Scope string_scope.
Open Scope list_scope.

Lemma extends_ret {A} (a : A) : extends (ret a).
Proof. intros t. exists []. cbn. now rewrite app_nil_r. Qed.

Lemma extends_fail {A} (e : error) : extends (@fail A e).
Proof. intros t. exists []. cbn. now rewrite app_nil_r. Qed.

Lemma extends_lift {A} (r : result A) : extends (lift r).
Proof. intros t. exists []. cbn. now rewrite app_nil_r. Qed.

Lemma extends_logf lvl format args : extends (logf lvl format args).
Proof. intros t. now exists [Logf lvl format args]. Qed.

Lemma extends_call {A} (e : Event) (answer : Trace -> result A) :
  extends (call e answer).
Proof. intros t. now exists [e]. Qed.

Lemma extends_bind {A B} (m : M A) (f : A -> M B) :
  extends m -> (forall a, extends (f a)) -> extends (bind m f).
Proof.
  intros Hm Hf t. unfold bind. destruct (Hm t) as [ev1 H1].
  destruct (m t) as [t1 [a|e]]; cbn [fst] in H1; subst t1.
  - destruct (Hf a (t ++ ev1)) as [ev2 H2]. exists (ev1 ++ ev2).
    now rewrite H2, app_assoc.
  - now exists ev1.
Qed.

Ltac extends_step :=
  first
    [ apply extends_ret | apply extends_fail | apply extends_lift
    | apply extends_logf | apply extends_call
    | apply extends_bind; [| intros ?]
    | match goal with
      | |- extends (if ?b then _ else _) => destruct b
      | |- extends (match ?x with _ => _ end) => destruct x
      | |- extends (let _ := _ in _) => cbv zeta
      end ].

Lemma getTopTwoUTXOs_extends env s : extends (getTopTwoUTXOs env s).
Proof. unfold getTopTwoUTXOs. repeat extends_step. Qed.

Lemma buildTxWithData_extends env s utxo data :
  extends (buildTxWithData env s utxo data).
Proof. unfold buildTxWithData. repeat extends_step. Qed.

Lemma sendTxToBTC_extends env tx : extends (sendTxToBTC env tx).
Proof. unfold sendTxToBTC. repeat extends_step. Qed.

Lemma ConvertCkptToTwoTxAndSubmit_extends env s ckpt :
  extends (ConvertCkptToTwoTxAndSubmit env s ckpt).
Proof.
  unfold ConvertCkptToTwoTxAndSubmit.
  repeat first [ apply getTopTwoUTXOs_extends | apply buildTxWithData_extends
               | apply sendTxToBTC_extends | extends_step ].
Qed.

(** [SubmitCkpt] announces itself first thing, whatever follows. *)
Lemma SubmitCkpt_announces env s ckpt t :
  exists ev,
    fst (SubmitCkpt env s ckpt t) =
    t ++ Logf LvlDebug "Submitting a raw checkpoint for epoch %v"
           [AInt (EpochNum (Ckpt ckpt))] :: ev.
Proof.
  unfold SubmitCkpt. unfold bind at 1. unfold logf at 1.
  match goal with
  | |- context [bind ?m ?f (t ++ [?e])] =>
      assert (He : extends (bind m f))
  end.
  { repeat first [ apply ConvertCkptToTwoTxAndSubmit_extends | extends_step ]. }
  destruct (He (t ++ [Logf LvlDebug "Submitting a raw checkpoint for epoch %v"
                        [AInt (EpochNum (Ckpt ckpt))]])) as [ev Hev].
  exists ev. rewrite Hev. now rewrite <- app_assoc.
Qed.

(** The [case ckpt := <-s.rawCkptChan] branch, by the status of the
    checkpoint: on [Sealed] the trace becomes the one [SubmitCkpt] leaves
    (which starts with its announcement), followed by the error log when
    it failed; on any other status the trace is unchanged. *)
Lemma onRawCkpt_cases
  (env : Env) (s : Submitter) (ckpt : RawCheckpointWithMeta) (t : Trace) :
  (Status ckpt = Sealed ->
   exists t2 r ev,
     SubmitCkpt env s ckpt (found ckpt t) = (t2, r) /\
     t2 = found ckpt t ++
          Logf LvlDebug "Submitting a raw checkpoint for epoch %v"
            [AInt (EpochNum (Ckpt ckpt))] :: ev /\
     onRawCkpt env s ckpt t =
       t2 ++ match r with
             | Err err =>
                 [Logf LvlError "Failed to submit the raw checkpoint for %v: %v"
                    [AInt (EpochNum (Ckpt ckpt)); AStr err]]
             | Ok _ => []
             end) /\
  (Status ckpt <> Sealed -> onRawCkpt env s ckpt t = t).
Proof.
  split.
  - intros Hst. unfold onRawCkpt. rewrite Hst. cbn [CheckpointStatus_eqb].
    fold (found ckpt t).
    destruct (SubmitCkpt_announces env s ckpt (found ckpt t)) as [ev Hev].
    destruct (SubmitCkpt env s ckpt (found ckpt t)) as [t2 r].
    cbn [fst] in Hev. exists t2, r, ev. split; [reflexivity|]. split; [exact Hev|].
    destruct r; [now rewrite app_nil_r | reflexivity].
  - intros Hst. unfold onRawCkpt.
    destruct (Status ckpt); cbn [CheckpointStatus_eqb]; congruence.
Qed.

(** C9.  The worker's loop, on a checkpoint received from the channel
    with whatever follows it in the inbox.  When the status is [Sealed]
    the loop runs [SubmitCkpt] on it, at the history that ends with the
    loop's own "found" line: the run of the loop is the run on the rest
    of the inbox from the trace that call of [SubmitCkpt] left (a trace
    that starts with the announcement of [SubmitCkpt]), followed by the
    error log when the call failed.  When the status is anything else the
    run of the loop is the run on the rest of the inbox from the same
    trace: nothing is logged, nothing is called.  So over a single
    received checkpoint the loop leaves the trace as it was exactly when
    the status is not [Sealed]. *)
Theorem sealedCkptHandler_submits_iff_sealed
  (env : Env) (s : Submitter) (ckpt : RawCheckpointWithMeta)
  (inbox : list Selected) (t : Trace) :
  (Status ckpt = Sealed ->
   exists t2 r ev,
     SubmitCkpt env s ckpt (found ckpt t) = (t2, r) /\
     t2 = found ckpt t ++
          Logf LvlDebug "Submitting a raw checkpoint for epoch %v"
            [AInt (EpochNum (Ckpt ckpt))] :: ev /\
     sealedCkptHandler env s (FromRawCkptChan ckpt :: inbox) t =
       sealedCkptHandler env s inbox
         (t2 ++ match r with
                | Err err =>
                    [Logf LvlError "Failed to submit the raw checkpoint for %v: %v"
                       [AInt (EpochNum (Ckpt ckpt)); AStr err]]
                | Ok _ => []
                end)) /\
  (Status ckpt <> Sealed ->
   sealedCkptHandler env s (FromRawCkptChan ckpt :: inbox) t =
   sealedCkptHandler env s inbox t) /\
  (sealedCkptHandler env s [FromRawCkptChan ckpt] t = (t, Waiting) <->
   Status ckpt <> Sealed).
Proof.
  destruct (onRawCkpt_cases env s ckpt t) as [Hsealed Hother].
  split; [|split].
  - intros Hst. destruct (Hsealed Hst) as (t2 & r & ev & Hsub & Ht2 & Hon).
    exists t2, r, ev. split; [exact Hsub|]. split; [exact Ht2|].
    cbn [sealedCkptHandler]. now rewrite Hon.
  - intros Hst. cbn [sealedCkptHandler]. now rewrite (Hother Hst).
  - cbn [sealedCkptHandler]. split.
    + intros Hsame Hst. destruct (Hsealed Hst) as (t2 & r & ev & _ & Ht2 & Hon).
      apply (f_equal fst) in Hsame. cbn [fst] in Hsame.
      rewrite Hon, Ht2 in Hsame. unfold found in Hsame.
      apply (f_equal (@List.length Event)) in Hsame.
      rewrite !length_app in Hsame. cbn [List.length] in Hsame. lia.
    + intros Hst. now rewrite (Hother Hst).
Qed.

(** A checkpoint in status [Submitted] followed by a sealed one: the
    first leaves no trace, the second is handed to [SubmitCkpt], whose
    announcement follows the loop's "found" line. *)
Lemma sealedCkptHandler_submits_iff_sealed_witness :
  sealedCkptHandler (wallet [] accept) (submitter 100000)
    [FromRawCkptChan (checkpoint 7 Submitted)] [] = ([], Waiting) /\
  exists ev,
    fst (sealedCkptHandler (wallet [] accept) (submitter 100000)
           [FromRawCkptChan (checkpoint 7 Submitted);
            FromRawCkptChan (checkpoint 8 Sealed)] []) =
      found (checkpoint 8 Sealed) [] ++
      Logf LvlDebug "Submitting a raw checkpoint for epoch %v" [AInt 8] :: ev.
Proof.
  destruct (sealedCkptHandler_submits_iff_sealed
              (wallet [] accept) (submitter 100000) (checkpoint 7 Submitted)
              [FromRawCkptChan (checkpoint 8 Sealed)] []) as (_ & Hother & _).
  destruct (sealedCkptHandler_submits_iff_sealed
              (wallet [] accept) (submitter 100000) (checkpoint 8 Sealed)
              [] []) as (Hsealed & _ & _).
  split.
  - destruct (sealedCkptHandler_submits_iff_sealed
                (wallet [] accept) (submitter 100000) (checkpoint 7 Submitted)
                [] []) as (_ & _ & Hone).
    apply Hone. discriminate.
  - rewrite Hother by discriminate.
    destruct (Hsealed eq_refl) as (t2 & r & ev & _ & Ht2 & Hrun).
    rewrite Hrun. cbn [sealedCkptHandler fst]. rewrite Ht2.
    destruct r as [u|err].
    + exists ev. now rewrite app_nil_r.
    + exists (ev ++ [Logf LvlError "Failed to submit the raw checkpoint for %v: %v"
                       [AInt 8; AStr err]]).
      rewrite <- app_assoc. reflexivity.
Defined.

(** The worker returns only when told to quit. *)
Lemma sealedCkptHandler_returns_on_quit_only env s inbox :
  forall t,
    snd (sealedCkptHandler env s inbox t) = Returned <-> In FromQuit inbox.
Proof.
  induction inbox as [|[ckpt|] inbox IH]; intros t; cbn [sealedCkptHandler].
  - cbn. split; [discriminate | tauto].
  - rewrite IH. cbn. split; [tauto | intros [H|H]; [discriminate | exact H]].
  - cbn. split; [now left | reflexivity].
Qed.

(** C10.  When [SubmitCkpt] fails on a sealed checkpoint, the worker
    logs the error and goes on with the rest of its inbox from the trace
    that single call left: the checkpoint is not submitted again, and
    the worker returns only if a quit signal comes later. *)
Theorem sealedCkptHandler_continues_after_failure
  (env : Env) (s : Submitter) (ckpt : RawCheckpointWithMeta)
  (inbox : list Selected) (t t2 : Trace) (err : error) :
  Status ckpt = Sealed ->
  SubmitCkpt env s ckpt (found ckpt t) = (t2, Err err) ->
  sealedCkptHandler env s (FromRawCkptChan ckpt :: inbox) t =
    sealedCkptHandler env s inbox
      (t2 ++ [Logf LvlError "Failed to submit the raw checkpoint for %v: %v"
                [AInt (EpochNum (Ckpt ckpt)); AStr err]]) /\
  (snd (sealedCkptHandler env s (FromRawCkptChan ckpt :: inbox) t) = Returned <->
   In FromQuit inbox).
Proof.
  intros Hst Hsub. split.
  - cbn [sealedCkptHandler]. unfold onRawCkpt. rewrite Hst.
    cbn [CheckpointStatus_eqb]. fold (found ckpt t). now rewrite Hsub.
  - rewrite sealedCkptHandler_returns_on_quit_only. cbn.
    split; [intros [H|H]; [discriminate | exact H] | tauto].
Qed.

(** A wallet without funds: the first sealed checkpoint fails, the worker
    logs it and handles the next message. *)
Lemma sealedCkptHandler_continues_after_failure_witness :
  exists t2,
    SubmitCkpt (wallet [] accept) (submitter 100000) (checkpoint 7 Sealed)
      (found (checkpoint 7 Sealed) []) =
      (t2, Err "insufficient unspent transactions") /\
    sealedCkptHandler (wallet [] accept) (submitter 100000)
      [FromRawCkptChan (checkpoint 7 Sealed);
       FromRawCkptChan (checkpoint 8 Submitted)] [] =
      (t2 ++ [Logf LvlError "Failed to submit the raw checkpoint for %v: %v"
                [AInt 7; AStr "insufficient unspent transactions"]],
       Waiting).
Proof.
  destruct (SubmitCkpt (wallet [] accept) (submitter 100000) (checkpoint 7 Sealed)
              (found (checkpoint 7 Sealed) [])) as [t2 r] eqn:Hsub.
  assert (Hr : r = Err "insufficient unspent transactions").
  { apply (f_equal snd) in Hsub. vm_compute in Hsub. now subst r. }
  subst r. exists t2. split; [reflexivity|].
  rewrite (proj1 (sealedCkptHandler_continues_after_failure
                    (wallet [] accept) (submitter 100000) (checkpoint 7 Sealed)
                    [FromRawCkptChan (checkpoint 8 Submitted)] [] t2
                    "insufficient unspent transactions" eq_refl Hsub)).
  reflexivity.
Defined.

End Worker.

(* ================================================================= *)
(** ** The reporter's block-event handlers *)

Section BlockEvents.
Import Reporter ReporterScenario.
Open Scope string_scope.
Open Scope list_scope.

Lemma Hash_eqb_eq (a b : bytes) : Hash_eqb a b = true <-> a = b.
Proof.
  revert b. induction a as [|x a IH]; intros [|y b]; cbn [Hash_eqb];
    try (split; [discriminate | discriminate]); [tauto|].
  rewrite andb_true_iff, IH. split.
  - intros [Hxy ->]. now rewrite (Byte.byte_dec_bl _ _ Hxy).
  - intros H. inversion H; subst. split; [now apply Byte.byte_dec_lb | reflexivity].
Qed.

Lemma Hash_eqb_neq (a b : bytes) : Hash_eqb a b = false <-> a <> b.
Proof.
  rewrite <- Hash_eqb_eq. destruct (Hash_eqb a b); split; congruence.
Qed.

(** C6.  A Connected event whose block the Bitcoin client returns.  If
    the cache is empty, or the block's previous-block hash is not the
    hash of the cache tip, the handler warns, calls [Bootstrap(true)] and
    returns: it calls neither [Add] nor the header or checkpoint
    extraction.  Otherwise it calls [Add] with the block, then
    [processHeaders], then [processCheckpoints], each once, on that block
    alone, and returns. *)
Theorem handleConnectedBlocks_bootstrap_or_extend
  (env : Env) (event : BlockEvent) (t : Trace)
  (ib : IndexedBlock) (mBlock : MsgBlock) :
  let blockHash := BlockHash env (EventHeader event) in
  let signer := MustGetAddr env t in
  let t1 := t ++ [Call_MustGetAddr] in
  let t2 := t1 ++ [Call_GetBlockByHash blockHash] in
  GetBlockByHash env t1 blockHash = Ok (ib, mBlock) ->
  (Tip env t2 = None ->
   handleConnectedBlocks env event t =
     (t2 ++ [Call_Tip;
             Logf LvlWarn "Cache is empty, restart bootstrap process" [];
             Call_Bootstrap true], Done tt)) /\
  (forall cacheTip,
     Tip env t2 = Some cacheTip ->
     PrevBlock (MsgHeader mBlock) <> BlockHash env (Header cacheTip) ->
     handleConnectedBlocks env event t =
       (t2 ++ [Call_Tip;
               Logf LvlWarn "Cache is not up-to-date, restart bootstrap process" [];
               Call_Bootstrap true], Done tt)) /\
  (forall cacheTip,
     Tip env t2 = Some cacheTip ->
     PrevBlock (MsgHeader mBlock) = BlockHash env (Header cacheTip) ->
     handleConnectedBlocks env event t =
       (t2 ++ [Call_Tip; Call_Add ib;
               Call_processHeaders signer [ib];
               Call_processCheckpoints signer [ib]], Done tt)).
Proof.
  intros blockHash signer t1 t2 Hget.
  unfold handleConnectedBlocks, call_, bind, call, logf, ret.
  fold blockHash t1. rewrite Hget. fold t2.
  repeat split.
  - intros Htip. rewrite Htip. now rewrite <- !app_assoc.
  - intros cacheTip Htip Hne. rewrite Htip.
    apply Hash_eqb_neq in Hne. rewrite Hne. cbn [negb].
    now rewrite <- !app_assoc.
  - intros cacheTip Htip Heq. rewrite Htip.
    apply Hash_eqb_eq in Heq. rewrite Heq. cbn [negb].
    now rewrite <- !app_assoc.
Qed.

(** The cache holds blocks up to 110; block 111, built on 110, is
    connected: it is added, and extraction runs once on it. *)
Lemma handleConnectedBlocks_bootstrap_or_extend_witness :
  handleConnectedBlocks
    (reporter (Some (block 110 [x6d] [x6e]))
              (Ok (block 111 [x6e] [x6f], msgBlock [x6e] [x6f])) (Ok tt))
    (connected 111 [x6e] [x6f]) [] =
  ([Call_MustGetAddr; Call_GetBlockByHash [x6f]; Call_Tip;
    Call_Add (block 111 [x6e] [x6f]);
    Call_processHeaders "bbn1signer" [block 111 [x6e] [x6f]];
    Call_processCheckpoints "bbn1signer" [block 111 [x6e] [x6f]]], Done tt).
Proof.
  exact (proj2 (proj2 (handleConnectedBlocks_bootstrap_or_extend
    (reporter (Some (block 110 [x6d] [x6e]))
              (Ok (block 111 [x6e] [x6f], msgBlock [x6e] [x6f])) (Ok tt))
    (connected 111 [x6e] [x6f]) []
    (block 111 [x6e] [x6f]) (msgBlock [x6e] [x6f]) eq_refl))
    (block 110 [x6d] [x6e]) eq_refl eq_refl).
Defined.

(** When the Bitcoin client cannot return the block, the handler logs
    the error and panics before it looks at the cache. *)
Theorem handleConnectedBlocks_fetch_failure
  (env : Env) (event : BlockEvent) (t : Trace) (err : error) :
  let blockHash := BlockHash env (EventHeader event) in
  GetBlockByHash env (t ++ [Call_MustGetAddr]) blockHash = Err err ->
  handleConnectedBlocks env event t =
    (t ++ [Call_MustGetAddr; Call_GetBlockByHash blockHash;
           Logf LvlError "Failed to get block %v from BTC client: %v"
             [AHash blockHash; AErr err]], Panic err).
Proof.
  intros blockHash Hget.
  unfold handleConnectedBlocks, call_, bind, call, logf, panic.
  fold blockHash. rewrite Hget. now rewrite <- !app_assoc.
Qed.

Lemma handleConnectedBlocks_fetch_failure_witness :
  handleConnectedBlocks
    (reporter None (Err "block not found") (Ok tt))
    (connected 111 [x6e] [x6f]) [] =
  ([Call_MustGetAddr; Call_GetBlockByHash [x6f];
    Logf LvlError "Failed to get block %v from BTC client: %v"
      [AHash [x6f]; AErr "block not found"]], Panic "block not found").
Proof.
  exact (handleConnectedBlocks_fetch_failure
           (reporter None (Err "block not found") (Ok tt))
           (connected 111 [x6e] [x6f]) [] "block not found" eq_refl).
Defined.

(** C7.  A Disconnected event.  If the cache is empty, or the event's
    block hash is not the hash of the cache tip, the handler warns, calls
    [Bootstrap(true)] and returns without calling [RemoveLast].
    Otherwise it calls [RemoveLast] once; when that succeeds it returns,
    and when that fails with an error it logs the error, calls
    [Bootstrap(true)] and panics with that error. *)
Theorem handleDisconnectedBlocks_bootstrap_or_remove
  (env : Env) (event : BlockEvent) (t : Trace) :
  let t1 := t ++ [Call_Tip] in
  (Tip env t = None ->
   handleDisconnectedBlocks env event t =
     (t1 ++ [Logf LvlWarn "Cache is empty, restart bootstrap process" [];
             Call_Bootstrap true], Done tt)) /\
  (forall cacheTip,
     Tip env t = Some cacheTip ->
     BlockHash env (EventHeader event) <> BlockHash env (Header cacheTip) ->
     handleDisconnectedBlocks env event t =
       (t1 ++ [Logf LvlWarn "Cache is not up-to-date, restart bootstrap process" [];
               Call_Bootstrap true], Done tt)) /\
  (forall cacheTip,
     Tip env t = Some cacheTip ->
     BlockHash env (EventHeader event) = BlockHash env (Header cacheTip) ->
     (RemoveLast env t1 = Ok tt ->
      handleDisconnectedBlocks env event t = (t1 ++ [Call_RemoveLast], Done tt)) /\
     (forall err,
        RemoveLast env t1 = Err err ->
        handleDisconnectedBlocks env event t =
          (t1 ++ [Call_RemoveLast;
                  Logf LvlWarn
                    "Failed to remove last block from cache: %v, restart bootstrap process"
                    [AErr err];
                  Call_Bootstrap true], Panic err))).
Proof.
  intros t1.
  unfold handleDisconnectedBlocks, call_, bind, call, logf, ret, panic.
  fold t1. split; [|split].
  - intros Htip. rewrite Htip. now rewrite <- !app_assoc.
  - intros cacheTip Htip Hne. rewrite Htip.
    apply Hash_eqb_neq in Hne. rewrite Hne. cbn [negb].
    now rewrite <- !app_assoc.
  - intros cacheTip Htip Heq. rewrite Htip.
    apply Hash_eqb_eq in Heq. rewrite Heq. cbn [negb]. split.
    + intros Hrm. now rewrite Hrm.
    + intros err Hrm. rewrite Hrm. now rewrite <- !app_assoc.
Qed.

(** The tip is block 110 and block 110 is disconnected: [RemoveLast] is
    called.  When the cache was emptied in between by the reporter's
    other event loop, [RemoveLast] fails and the handler bootstraps and
    panics. *)
Lemma handleDisconnectedBlocks_bootstrap_or_remove_witness :
  handleDisconnectedBlocks
    (reporter (Some (block 110 [x6d] [x6e])) (Err "unused") (Ok tt))
    (disconnected 110 [x6d] [x6e]) [] =
    ([Call_Tip; Call_RemoveLast], Done tt) /\
  handleDisconnectedBlocks
    (reporter (Some (block 110 [x6d] [x6e])) (Err "unused") (Err "empty cache"))
    (disconnected 110 [x6d] [x6e]) [] =
    ([Call_Tip; Call_RemoveLast;
      Logf LvlWarn
        "Failed to remove last block from cache: %v, restart bootstrap process"
        [AErr "empty cache"];
      Call_Bootstrap true], Panic "empty cache") /\
  handleDisconnectedBlocks
    (reporter (Some (block 110 [x6d] [x6e])) (Err "unused") (Ok tt))
    (disconnected 109 [x6c] [x6d]) [] =
    ([Call_Tip;
      Logf LvlWarn "Cache is not up-to-date, restart bootstrap process" [];
      Call_Bootstrap true], Done tt).
Proof.
  split; [|split].
  - exact (proj1 (proj2 (proj2 (handleDisconnectedBlocks_bootstrap_or_remove
      (reporter (Some (block 110 [x6d] [x6e])) (Err "unused") (Ok tt))
      (disconnected 110 [x6d] [x6e]) []))
      (block 110 [x6d] [x6e]) eq_refl eq_refl) eq_refl).
  - exact (proj2 (proj2 (proj2 (handleDisconnectedBlocks_bootstrap_or_remove
      (reporter (Some (block 110 [x6d] [x6e])) (Err "unused") (Err "empty cache"))
      (disconnected 110 [x6d] [x6e]) []))
      (block 110 [x6d] [x6e]) eq_refl eq_refl) "empty cache" eq_refl).
  - apply (proj1 (proj2 (handleDisconnectedBlocks_bootstrap_or_remove
      (reporter (Some (block 110 [x6d] [x6e])) (Err "unused") (Ok tt))
      (disconnected 109 [x6c] [x6d]) []))
      (block 110 [x6d] [x6e]) eq_refl).
    cbn. intros H. inversion H.
Defined.

End BlockEvents.

(* ================================================================= *)
(** ** What each step of the submitter may do *)

Section StepEvents.
Import wire Submitter Scenario SubmitterTrace.
Open Scope string_scope.
Open Scope list_scope.

Lemma emits_ret {A} p (a : A) : emits p (ret a).
Proof. intros t. exists []. cbn. now rewrite app_nil_r. Qed.

Lemma emits_fail {A} p (e : error) : emits p (@fail A e).
Proof. intros t. exists []. cbn. now rewrite app_nil_r. Qed.

Lemma emits_lift {A} p (r : result A) : emits p (lift r).
Proof. intros t. exists []. cbn. now rewrite app_nil_r. Qed.

Lemma emits_logf (p : Event -> bool) lvl format args :
  p (Logf lvl format args) = true -> emits p (logf lvl format args).
Proof. intros Hp t. exists [Logf lvl format args]. cbn. now rewrite Hp. Qed.

Lemma emits_call {A} (p : Event -> bool) (e : Event)
  (answer : Trace -> result A) :
  p e = true -> emits p (call e answer).
Proof. intros Hp t. exists [e]. cbn. now rewrite Hp. Qed.

Lemma emits_bind {A B} p (m : M A) (f : A -> M B) :
  emits p m -> (forall a, emits p (f a)) -> emits p (bind m f).
Proof.
  intros Hm Hf t. unfold bind. destruct (Hm t) as (ev1 & H1 & Hp1).
  destruct (m t) as [t1 [a|e]]; cbn [fst] in H1; subst t1.
  - destruct (Hf a (t ++ ev1)) as (ev2 & H2 & Hp2). exists (ev1 ++ ev2).
    rewrite H2, app_assoc, forallb_app, Hp1, Hp2. now split.
  - now exists ev1.
Qed.

Lemma emits_weaken {A} (p q : Event -> bool) (m : M A) :
  (forall e, p e = true -> q e = true) -> emits p m -> emits q m.
Proof.
  intros Hpq Hm t. destruct (Hm t) as (ev & Hev & Hp). exists ev.
  split; [exact Hev|]. rewrite forallb_forall in *. auto.
Qed.

Ltac emits_step :=
  first
    [ apply emits_ret | apply emits_fail | apply emits_lift
    | apply emits_logf; reflexivity | apply emits_call; reflexivity
    | apply emits_bind; [| intros ?]
    | match goal with
      | |- emits _ (if ?b then _ else _) => destruct b
      | |- emits _ (match ?x with _ => _ end) => destruct x
      | |- emits _ (let _ := _ in _) => cbv zeta
      end ].

Lemma getTopTwoUTXOs_emits env s : emits selectionEvent (getTopTwoUTXOs env s).
Proof. unfold getTopTwoUTXOs. repeat emits_step. Qed.

Lemma buildTxWithData_emits env s utxo data :
  emits buildEvent (buildTxWithData env s utxo data).
Proof. unfold buildTxWithData. repeat emits_step. Qed.

Lemma ConvertCkptToTwoTxAndSubmit_no_outcome_log env s ckpt :
  emits (fun e => negb (isOutcomeLog e)) (ConvertCkptToTwoTxAndSubmit env s ckpt).
Proof.
  unfold ConvertCkptToTwoTxAndSubmit, getTopTwoUTXOs, buildTxWithData, sendTxToBTC.
  repeat emits_step.
Qed.

End StepEvents.

(* ================================================================= *)
(** ** Wallet calls of the selection and of a build *)

Section WalletCalls.
Import wire Submitter Scenario SubmitterTrace.
Open Scope string_scope.
Open Scope list_scope.

Ltac unfold_goal :=
  unfold bind, lift, call, logf, ret, fail; cbv beta iota.

Ltac next_goal_answer :=
  match goal with
  | |- context [match ?x with _ => _ end] =>
      lazymatch x with
      | context [match _ with _ => _ end] => fail
      | _ => destruct x eqn:?
      end
  end; cbv beta iota.

Ltac emitted :=
  cbn [fst snd]; rewrite <- ?app_assoc; cbn [app];
  match goal with
  | |- exists ev, ?t ++ ?l = ?t ++ ev /\ _ => exists l; split; [reflexivity|]
  | |- exists ev, ?t = ?t ++ ev /\ _ =>
      exists []; split; [symmetry; apply app_nil_r|]
  end.

(** The selection asks the wallet for its list once, right after its
    first log line, and does nothing else to the wallet or the node:
    whatever the outcome, the rest of its events are log lines. *)
Theorem getTopTwoUTXOs_asks_wallet_once
  (env : Env) (s : Submitter) (t : Trace) :
  exists ev,
    fst (getTopTwoUTXOs env s t) =
      t ++ Logf LvlDebug "Searching for unspent transactions..." []
        :: Call_ListUnspent :: ev /\
    forallb isLog ev = true.
Proof.
  unfold getTopTwoUTXOs. unfold_goal. repeat next_goal_answer.
  all: cbn [fst]; rewrite <- ?app_assoc; cbn [app].
  all: eexists; split; [reflexivity | reflexivity].
Qed.

(** A build never broadcasts.  It asks the wallet for a private key only
    after the wallet accepted the passphrase, and it asks for the key of
    the address decoded from the UTXO's [Address], or of no address at
    all when that decoding failed: the decoding error itself is
    dropped. *)
Theorem buildTxWithData_key_after_unlock
  (env : Env) (s : Submitter) (utxo : ListUnspentResult) (data : bytes)
  (t : Trace) :
  exists ev,
    fst (buildTxWithData env s utxo data t) = t ++ ev /\
    sends ev = 0%nat /\
    forall i addr,
      nth_error ev i = Some (Call_DumpPrivKey addr) ->
      addr = match DecodeAddress env (Address utxo) (NetParams (Cfg s)) with
             | Ok a => Some a
             | Err _ => None
             end /\
      unlockedBefore env s t ev i.
Proof.
  unfold buildTxWithData. unfold_goal. repeat next_goal_answer.
  all: emitted.
  all: split; [reflexivity|].
  all: intros i addr Hi.
  all: repeat (destruct i as [|i]; cbn in Hi; try discriminate Hi).
  all: inversion Hi; subst; clear Hi.
  all: split; [reflexivity|].
  all: exists 3%nat; split; [lia|]; split; [reflexivity|].
  all: cbn [firstn]; rewrite <- ?app_assoc in *; cbn [app] in *;
       match goal with
       | H : WalletPassphrase _ _ _ _ = Ok ?u |- _ => destruct u; exact H
       end.
Qed.

(** The address of the UTXO cannot be decoded: the key is asked for no
    address, after the unlock, and the build still returns a
    transaction. *)
Lemma buildTxWithData_key_after_unlock_witness :
  exists ev,
    fst (buildTxWithData (MoreScenarios.wallet_undecodable [] accept)
           (submitter 100000) (utxo "a" 0 1 true) [x01] []) = ev /\
    nth_error ev 4 = Some (Call_DumpPrivKey None) /\
    unlockedBefore (MoreScenarios.wallet_undecodable [] accept)
      (submitter 100000) [] ev 4 /\
    is_ok (snd (buildTxWithData (MoreScenarios.wallet_undecodable [] accept)
                  (submitter 100000) (utxo "a" 0 1 true) [x01] [])) = true.
Proof.
  destruct (buildTxWithData_key_after_unlock
              (MoreScenarios.wallet_undecodable [] accept)
              (submitter 100000) (utxo "a" 0 1 true) [x01] [])
    as (ev & Hfst & _ & Hkey).
  exists ev. cbn [app] in Hfst. split; [exact Hfst|].
  assert (H4 : nth_error ev 4 = Some (Call_DumpPrivKey None)).
  { rewrite <- Hfst. vm_compute. reflexivity. }
  split; [exact H4|]. split; [exact (proj2 (Hkey 4%nat None H4))|].
  vm_compute. reflexivity.
Defined.

End WalletCalls.

(* ================================================================= *)
(** ** The two transactions of a checkpoint *)

Section TwoTransactions.
Import wire Submitter Scenario SubmitterTrace.
Open Scope string_scope.
Open Scope list_scope.

Ltac unfold_run H :=
  unfold bind, lift, call, logf, ret, fail in H; cbv beta iota in H.

Ltac next_answer H :=
  match type of H with
  | context [match ?x with _ => _ end] =>
      lazymatch x with
      | context [match _ with _ => _ end] => fail
      | _ => destruct x eqn:?
      end
  end; cbv beta iota in H; try discriminate H.

Ltac emits_step :=
  first
    [ apply emits_ret | apply emits_fail | apply emits_lift
    | apply emits_logf; reflexivity | apply emits_call; reflexivity
    | apply emits_bind; [| intros ?]
    | match goal with
      | |- emits _ (if ?b then _ else _) => destruct b
      | |- emits _ (match ?x with _ => _ end) => destruct x
      | |- emits _ (let _ := _ in _) => cbv zeta
      end ].

Lemma filter_none {A} (p : A -> bool) (l : list A) :
  forallb (fun a => negb (p a)) l = true -> filter p l = [].
Proof.
  induction l as [|a l IH]; cbn; [reflexivity|].
  intros H. apply andb_true_iff in H. destruct H as [Ha Hl].
  destruct (p a); [discriminate | now apply IH].
Qed.

Lemma getTopTwoUTXOs_never_builds env s :
  emits (fun e => negb (isBuildStart e) && negb (isSend e))
        (getTopTwoUTXOs env s).
Proof. unfold getTopTwoUTXOs. repeat emits_step. Qed.

Lemma getTopTwoUTXOs_Ok_funded env s t t' u1 u2 :
  getTopTwoUTXOs env s t = (t', Ok (u1, u2)) ->
  (Amount u1 <? btcutil.ToBTC (TxFee (btcWallet_Cfg s)))%float = false /\
  (Amount u2 <? btcutil.ToBTC (TxFee (btcWallet_Cfg s)))%float = false.
Proof.
  intros H. unfold getTopTwoUTXOs in H. unfold_run H.
  repeat next_answer H. inversion H; subst. now split.
Qed.

Lemma sendTxToBTC_Ok env tx t t' txid :
  sendTxToBTC env tx t = (t', Ok txid) ->
  exists l1 l2,
    t' = t ++ [Logf LvlDebug l1 [ABytes (TxHash env tx)];
               Call_SendRawTransaction tx true;
               Logf LvlDebug l2 [ABytes (TxHash env tx)]].
Proof.
  intros H. unfold sendTxToBTC in H. unfold_run H. repeat next_answer H.
  inversion H; subst. do 2 eexists. rewrite <- !app_assoc. reflexivity.
Qed.

(** The two UTXOs selected are two different entries of the list the
    wallet returned: the same entry is never selected twice. *)
Theorem getTopTwoUTXOs_selects_two_entries
  (env : Env) (s : Submitter) (t t' : Trace)
  (utxos : list ListUnspentResult) (u0 u1 : ListUnspentResult) :
  ListUnspent env (searched t) = Ok utxos ->
  getTopTwoUTXOs env s t = (t', Ok (u0, u1)) ->
  exists rest, Permutation utxos (u0 :: u1 :: rest).
Proof.
  intros Hl Hrun. apply (f_equal snd) in Hrun. cbn [snd] in Hrun.
  destruct (getTopTwoUTXOs_cases env s t utxos Hl)
    as [[_ Hr] | (v0 & v1 & rest & Hs & _ & Hcase)]; [congruence|].
  destruct Hcase as [[_ Hr] | [(_ & _ & Hr) | (_ & _ & Hr)]]; try congruence.
  rewrite Hr in Hrun. inversion Hrun; subst v0 v1.
  exists rest. rewrite <- Hs. apply sort_Slice_Permutation.
Qed.

Lemma getTopTwoUTXOs_selects_two_entries_witness :
  exists rest,
    Permutation [utxo "a" 0 1 true; utxo "b" 0 5 true; utxo "c" 0 3 true]
                (utxo "b" 0 5 true :: utxo "c" 0 3 true :: rest).
Proof.
  apply (getTopTwoUTXOs_selects_two_entries
           (wallet [utxo "a" 0 1 true; utxo "b" 0 5 true; utxo "c" 0 3 true] accept)
           (submitter 100000) []
           (fst (getTopTwoUTXOs
                   (wallet [utxo "a" 0 1 true; utxo "b" 0 5 true; utxo "c" 0 3 true]
                           accept)
                   (submitter 100000) []))
           [utxo "a" 0 1 true; utxo "b" 0 5 true; utxo "c" 0 3 true]
           (utxo "b" 0 5 true) (utxo "c" 0 3 true)).
  - reflexivity.
  - vm_compute. reflexivity.
Defined.

(** Two UTXOs that are outputs of the same transaction: the
    transactions built from them spend the same outpoint, output 0 of
    that transaction, so at most one of the two can ever be mined. *)
Theorem buildTxWithData_same_TxID_same_outpoint
  (env : Env) (s : Submitter) (u1 u2 : ListUnspentResult) (d1 d2 : bytes)
  (t1 t1' t2 t2' : Trace) (tx1 tx2 : MsgTx) :
  TxID u1 = TxID u2 ->
  buildTxWithData env s u1 d1 t1 = (t1', Ok tx1) ->
  buildTxWithData env s u2 d2 t2 = (t2', Ok tx2) ->
  map PreviousOutPoint (TxIn tx1) = map PreviousOutPoint (TxIn tx2).
Proof.
  intros Hid H1 H2.
  destruct (buildTxWithData_Ok _ _ _ _ _ _ _ H1)
    as (h1 & ? & ? & ? & ? & Hh1 & _ & _ & ->).
  destruct (buildTxWithData_Ok _ _ _ _ _ _ _ H2)
    as (h2 & ? & ? & ? & ? & Hh2 & _ & _ & ->).
  rewrite Hid in Hh1. rewrite Hh1 in Hh2. inversion Hh2. reflexivity.
Qed.

Lemma buildTxWithData_same_TxID_same_outpoint_witness :
  exists t1' t2' tx1 tx2,
    buildTxWithData (wallet [] accept) (submitter 100000)
      (utxo "f00d" 0 1 true) [x01] [] = (t1', Ok tx1) /\
    buildTxWithData (wallet [] accept) (submitter 100000)
      (utxo "f00d" 1 2 true) [x02] [] = (t2', Ok tx2) /\
    map PreviousOutPoint (TxIn tx1) = map PreviousOutPoint (TxIn tx2).
Proof.
  destruct (buildTxWithData (wallet [] accept) (submitter 100000)
              (utxo "f00d" 0 1 true) [x01] []) as [t1' [tx1|e]] eqn:H1;
    [|vm_compute in H1; discriminate H1].
  destruct (buildTxWithData (wallet [] accept) (submitter 100000)
              (utxo "f00d" 1 2 true) [x02] []) as [t2' [tx2|e]] eqn:H2;
    [|vm_compute in H2; discriminate H2].
  exists t1', t2', tx1, tx2. split; [reflexivity|]. split; [reflexivity|].
  exact (buildTxWithData_same_TxID_same_outpoint
           (wallet [] accept) (submitter 100000)
           (utxo "f00d" 0 1 true) (utxo "f00d" 1 2 true) [x01] [x02]
           [] t1' [] t2' tx1 tx2 eq_refl H1 H2).
Defined.

(** A checkpoint that cannot be encoded touches neither wallet nor node,
    and no transaction is built unless the selection returned two UTXOs,
    each with an amount that is not below the fee. *)
Theorem ConvertCkptToTwoTxAndSubmit_builds_only_funded
  (env : Env) (s : Submitter) (ckpt : RawCheckpointWithMeta) (t0 : Trace) :
  exists ev,
    fst (ConvertCkptToTwoTxAndSubmit env s ckpt t0) = t0 ++ ev /\
    (ev <> [] ->
     exists lch data,
       Marshal env (LastCommitHash (Ckpt ckpt)) = Ok lch /\
       EncodeCheckpointData env (GetTag (Cfg s)) (GetVersion (Cfg s))
         (EpochNum (Ckpt ckpt)) lch (Bitmap (Ckpt ckpt))
         (BlsMultiSig (Ckpt ckpt)) (submitterAddress s) = Ok data) /\
    ((1 <= builds ev)%nat ->
     exists t1 u1 u2,
       getTopTwoUTXOs env s t0 = (t1, Ok (u1, u2)) /\
       (Amount u1 <? btcutil.ToBTC (TxFee (btcWallet_Cfg s)))%float = false /\
       (Amount u2 <? btcutil.ToBTC (TxFee (btcWallet_Cfg s)))%float = false).
Proof.
  destruct (ConvertCkptToTwoTxAndSubmit_extends env s ckpt t0) as [ev Hev].
  exists ev. split; [exact Hev|].
  unfold ConvertCkptToTwoTxAndSubmit in Hev. unfold bind at 1, lift at 1 in Hev.
  destruct (Marshal env (LastCommitHash (Ckpt ckpt))) as [lch|e] eqn:Hm.
  2:{ cbn [fst] in Hev. rewrite <- (app_nil_r t0) in Hev at 1.
      apply app_inv_head in Hev. subst ev. split; [congruence | cbn; lia]. }
  unfold bind at 1, lift at 1 in Hev.
  destruct (EncodeCheckpointData env _ _ _ _ _ _ _) as [[data1 data2]|e] eqn:He.
  2:{ cbn [fst] in Hev. rewrite <- (app_nil_r t0) in Hev at 1.
      apply app_inv_head in Hev. subst ev. split; [congruence | cbn; lia]. }
  split; [intros _; now exists lch, (data1, data2)|].
  unfold bind at 1 in Hev.
  destruct (getTopTwoUTXOs_never_builds env s t0) as (ev1 & H1 & Hq).
  destruct (getTopTwoUTXOs env s t0) as [t1 [[u1 u2]|e]] eqn:Hsel.
  - intros _. exists t1, u1, u2. split; [reflexivity|].
    exact (getTopTwoUTXOs_Ok_funded _ _ _ _ _ _ Hsel).
  - cbn [fst] in Hev, H1. rewrite H1 in Hev. apply app_inv_head in Hev.
    subst ev1. intros Hb. exfalso. unfold builds in Hb.
    rewrite filter_none in Hb; [cbn in Hb; lia|].
    rewrite forallb_forall in *. intros e' He'. specialize (Hq e' He').
    apply andb_true_iff in Hq. tauto.
Qed.

Lemma buildTxWithData_carries env s utxo data t t' tx :
  buildTxWithData env s utxo data t = (t', Ok tx) -> carries env tx utxo data.
Proof.
  intros H.
  destruct (buildTxWithData_Ok _ _ _ _ _ _ _ H)
    as (hash & dataScript & ? & ? & ? & Hh & Hd & _ & ->).
  now exists hash, dataScript.
Qed.

Lemma sends_of_step {A} (m : M A) (t : Trace) :
  emits (fun e => negb (isSend e)) m ->
  exists ev, fst (m t) = t ++ ev /\ filter isSend ev = [].
Proof.
  intros Hm. destruct (Hm t) as (ev & Hev & Hq). exists ev.
  split; [exact Hev | now apply filter_none].
Qed.

(** When a checkpoint is submitted without error, exactly two
    transactions were broadcast: first the one that spends the first
    selected UTXO and carries the first chunk of the encoded checkpoint,
    then the one that spends the second selected UTXO and carries the
    second chunk. *)
Theorem ConvertCkptToTwoTxAndSubmit_success_sends_both_chunks
  (env : Env) (s : Submitter) (ckpt : RawCheckpointWithMeta) (t0 t : Trace) :
  ConvertCkptToTwoTxAndSubmit env s ckpt t0 = (t, Ok tt) ->
  exists lch data1 data2 t1 u1 u2 tx1 tx2 ev,
    Marshal env (LastCommitHash (Ckpt ckpt)) = Ok lch /\
    EncodeCheckpointData env (GetTag (Cfg s)) (GetVersion (Cfg s))
      (EpochNum (Ckpt ckpt)) lch (Bitmap (Ckpt ckpt))
      (BlsMultiSig (Ckpt ckpt)) (submitterAddress s) = Ok (data1, data2) /\
    getTopTwoUTXOs env s t0 = (t1, Ok (u1, u2)) /\
    t = t0 ++ ev /\
    filter isSend ev =
      [Call_SendRawTransaction tx1 true; Call_SendRawTransaction tx2 true] /\
    carries env tx1 u1 data1 /\
    carries env tx2 u2 data2.
Proof.
  intros H. unfold ConvertCkptToTwoTxAndSubmit in H. unfold_run H.
  repeat next_answer H.
  match goal with
  | HM : Marshal env _ = Ok ?lch,
    H1 : getTopTwoUTXOs env s t0 = (?t1, Ok (?u1, ?u2)),
    H2 : buildTxWithData env s ?u1 ?d1 ?t1 = (?t2, Ok ?tx1),
    H3 : sendTxToBTC env ?tx1 ?t2 = (?t3, Ok _),
    H4 : buildTxWithData env s ?u2 ?d2 ?t3 = (?t4, Ok ?tx2),
    H5 : sendTxToBTC env ?tx2 ?t4 = (?t5, Ok _) |- _ =>
      pose proof (buildTxWithData_carries _ _ _ _ _ _ _ H2) as Hc1;
      pose proof (buildTxWithData_carries _ _ _ _ _ _ _ H4) as Hc2;
      destruct (sends_of_step (getTopTwoUTXOs env s) t0) as (e1 & He1 & Hf1);
        [eapply emits_weaken; [|apply getTopTwoUTXOs_never_builds];
         intros ? Hq; apply andb_true_iff in Hq; tauto|];
      destruct (sends_of_step (buildTxWithData env s u1 d1) t1)
        as (e2 & He2 & Hf2); [apply buildTxWithData_emits|];
      destruct (sends_of_step (buildTxWithData env s u2 d2) t3)
        as (e4 & He4 & Hf4); [apply buildTxWithData_emits|];
      destruct (sendTxToBTC_Ok _ _ _ _ _ H3) as (l1 & l2 & Hs3);
      destruct (sendTxToBTC_Ok _ _ _ _ _ H5) as (l3 & l4 & Hs5);
      rewrite H1 in He1; rewrite H2 in He2; rewrite H4 in He4;
      cbn [fst] in He1, He2, He4;
      exists lch, d1, d2, t1, u1, u2, tx1, tx2
    end.
  inversion H; subst; clear H.
  eexists. repeat split; try eassumption.
  - rewrite <- !app_assoc. reflexivity.
  - rewrite !filter_app, Hf1, Hf2, Hf4. reflexivity.
Qed.

Lemma ConvertCkptToTwoTxAndSubmit_success_sends_both_chunks_witness :
  exists t u1 u2 tx1 tx2 ev,
    ConvertCkptToTwoTxAndSubmit
      (wallet [utxo "a" 0 1 true; utxo "b" 0 5 true; utxo "c" 0 3 true] accept)
      (submitter 100000) (checkpoint 7 Sealed) [] = (t, Ok tt) /\
    t = [] ++ ev /\
    filter isSend ev =
      [Call_SendRawTransaction tx1 true; Call_SendRawTransaction tx2 true] /\
    carries (wallet [utxo "a" 0 1 true; utxo "b" 0 5 true; utxo "c" 0 3 true]
                    accept) tx1 u1 [x01] /\
    carries (wallet [utxo "a" 0 1 true; utxo "b" 0 5 true; utxo "c" 0 3 true]
                    accept) tx2 u2 [x02].
Proof.
  destruct (ConvertCkptToTwoTxAndSubmit
              (wallet [utxo "a" 0 1 true; utxo "b" 0 5 true; utxo "c" 0 3 true]
                      accept)
              (submitter 100000) (checkpoint 7 Sealed) []) as [t [[]|e]] eqn:Hrun;
    [|vm_compute in Hrun; discriminate Hrun].
  destruct (ConvertCkptToTwoTxAndSubmit_success_sends_both_chunks _ _ _ _ _ Hrun)
    as (lch & data1 & data2 & t1 & u1 & u2 & tx1 & tx2 & ev
        & _ & He & _ & Ht & Hf & Hc1 & Hc2).
  vm_compute in He. inversion He; subst data1 data2.
  exists t, u1, u2, tx1, tx2, ev. now repeat split.
Defined.

End TwoTransactions.

(* ================================================================= *)
(** ** The worker over its whole inbox *)

Section WorkerLoop.
Import wire Submitter Scenario SubmitterTrace.
Open Scope string_scope.
Open Scope list_scope.

(** Checkpoints that are not sealed can be dropped from the inbox
    without changing anything the worker does. *)
Theorem sealedCkptHandler_skips_unsealed
  (env : Env) (s : Submitter) (inbox : list Selected) (t : Trace) :
  sealedCkptHandler env s (filter actedOn inbox) t =
  sealedCkptHandler env s inbox t.
Proof.
  revert t. induction inbox as [|[ckpt|] inbox IH]; intros t;
    cbn [filter actedOn]; [reflexivity | | reflexivity].
  destruct (isSealed ckpt) eqn:Hs; cbn [sealedCkptHandler].
  - apply IH.
  - rewrite IH. unfold onRawCkpt. unfold isSealed in Hs. now rewrite Hs.
Qed.

(** [SubmitCkpt] logs its success line once when it returns without
    error and not at all otherwise; the worker's failure line is never
    logged by it. *)
Lemma SubmitCkpt_unfold env s ckpt t :
  SubmitCkpt env s ckpt t =
    match ConvertCkptToTwoTxAndSubmit env s ckpt
            (t ++ [Logf LvlDebug "Submitting a raw checkpoint for epoch %v"
                     [AInt (EpochNum (Ckpt ckpt))]]) with
    | (t1, Ok _) =>
        (t1 ++ [Logf LvlInfo "Successfully submitted a raw checkpoint for epoch %v"
                  [AInt (EpochNum (Ckpt ckpt))]], Ok tt)
    | (t1, Err e) => (t1, Err e)
    end.
Proof.
  unfold SubmitCkpt, bind, logf, ret.
  now destruct (ConvertCkptToTwoTxAndSubmit env s ckpt _) as [t1 [[]|e]].
Qed.

Lemma SubmitCkpt_outcome env s ckpt t :
  exists ev,
    fst (SubmitCkpt env s ckpt t) = t ++ ev /\
    filter isFailureLog ev = [] /\
    List.length (filter isSuccessLog ev) =
      (if is_ok (snd (SubmitCkpt env s ckpt t)) then 1 else 0)%nat.
Proof.
  rewrite SubmitCkpt_unfold.
  destruct (ConvertCkptToTwoTxAndSubmit_no_outcome_log env s ckpt
              (t ++ [Logf LvlDebug "Submitting a raw checkpoint for epoch %v"
                       [AInt (EpochNum (Ckpt ckpt))]])) as (ev & Hev & Hq).
  assert (Hnf : filter isFailureLog ev = []).
  { apply filter_none. rewrite forallb_forall in *. intros e He.
    specialize (Hq e He). unfold isOutcomeLog in Hq.
    destruct (isFailureLog e); [now rewrite orb_true_r in Hq | reflexivity]. }
  assert (Hns : filter isSuccessLog ev = []).
  { apply filter_none. rewrite forallb_forall in *. intros e He.
    specialize (Hq e He). unfold isOutcomeLog in Hq.
    destruct (isSuccessLog e); [discriminate Hq | reflexivity]. }
  destruct (ConvertCkptToTwoTxAndSubmit env s ckpt _) as [t1 [[]|e]];
    cbn [fst] in Hev; subst t1; cbn [fst snd is_ok].
  - eexists. split; [rewrite <- !app_assoc; reflexivity|].
    cbn [app filter isFailureLog isSuccessLog].
    rewrite !filter_app, Hnf, Hns. cbn. split; reflexivity.
  - eexists. split; [rewrite <- !app_assoc; reflexivity|].
    cbn [app filter isFailureLog isSuccessLog].
    rewrite Hnf, Hns. split; reflexivity.
Qed.

Lemma outcomes_split (ev : Trace) :
  outcomes ev =
    (List.length (filter isSuccessLog ev) +
     List.length (filter isFailureLog ev))%nat.
Proof.
  unfold outcomes. induction ev as [|e ev IH]; [reflexivity|].
  cbn [filter]. unfold isOutcomeLog at 1.
  destruct e as [[] format args| | | | |]; cbn [isSuccessLog isFailureLog orb];
    try exact IH.
  - destruct (String.eqb format _); cbn [List.length orb]; lia.
  - destruct (String.eqb format _); cbn [List.length orb]; lia.
Qed.

Lemma onRawCkpt_outcome env s ckpt t :
  exists ev,
    onRawCkpt env s ckpt t = t ++ ev /\
    outcomes ev = (if isSealed ckpt then 1 else 0)%nat.
Proof.
  unfold onRawCkpt, isSealed.
  destruct (CheckpointStatus_eqb (Status ckpt) Sealed).
  2:{ exists []. now rewrite app_nil_r. }
  destruct (SubmitCkpt_outcome env s ckpt
              (t ++ [Logf LvlInfo "A sealed raw checkpoint for epoch %v is found"
                       [AInt (EpochNum (Ckpt ckpt))]])) as (ev & Hev & Hf & Hs).
  destruct (SubmitCkpt env s ckpt _) as [t2 [[]|err]];
    cbn [fst snd is_ok] in Hev, Hs; subst t2.
  - exists ([Logf LvlInfo "A sealed raw checkpoint for epoch %v is found"
                [AInt (EpochNum (Ckpt ckpt))]] ++ ev).
    split; [now rewrite <- app_assoc|].
    rewrite outcomes_split, !filter_app, !length_app, Hf, Hs. reflexivity.
  - exists ([Logf LvlInfo "A sealed raw checkpoint for epoch %v is found"
                [AInt (EpochNum (Ckpt ckpt))]] ++ ev ++
            [Logf LvlError "Failed to submit the raw checkpoint for %v: %v"
               [AInt (EpochNum (Ckpt ckpt)); AStr err]]).
    split; [now rewrite <- !app_assoc|].
    rewrite outcomes_split, !filter_app, !length_app, Hf, Hs. reflexivity.
Qed.

Lemma sealedCkptHandler_extends env s inbox :
  forall t, exists ev, fst (sealedCkptHandler env s inbox t) = t ++ ev.
Proof.
  induction inbox as [|[ckpt|] inbox IH]; intros t; cbn [sealedCkptHandler].
  - exists []. cbn. now rewrite app_nil_r.
  - destruct (onRawCkpt_outcome env s ckpt t) as (ev1 & H1 & _).
    destruct (IH (onRawCkpt env s ckpt t)) as (ev2 & H2).
    exists (ev1 ++ ev2). now rewrite H2, H1, app_assoc.
  - exists []. cbn. now rewrite app_nil_r.
Qed.

(** A run of the worker in which no build asked the wallet for the key
    of no address, the call a build makes after the address of its UTXO
    failed to decode and the one point of the pipeline where a wallet
    client that reads the address does not return.  In such a run every
    sealed checkpoint the worker handles leaves exactly one outcome line
    in the log, the success line of [SubmitCkpt] or the worker's failure
    line, and nothing else leaves one: the number of outcome lines is the
    number of sealed checkpoints received before the quit signal. *)
Theorem sealedCkptHandler_one_outcome_per_sealed
  (env : Env) (s : Submitter) (inbox : list Selected) (t ev : Trace) :
  fst (sealedCkptHandler env s inbox t) = t ++ ev ->
  existsb isKeyOfNoAddress ev = false ->
  outcomes ev = List.length (filter isSealed (beforeQuit inbox)).
Proof.
  revert t ev. induction inbox as [|[ckpt|] inbox IH]; intros t ev Hev Hno;
    cbn [sealedCkptHandler beforeQuit filter] in *.
  - cbn [fst] in Hev. rewrite <- (app_nil_r t) in Hev at 1.
    apply app_inv_head in Hev. now subst ev.
  - destruct (onRawCkpt_outcome env s ckpt t) as (ev1 & H1 & Ho1).
    destruct (sealedCkptHandler_extends env s inbox (onRawCkpt env s ckpt t))
      as (ev2 & H2).
    assert (Hsplit : ev = ev1 ++ ev2).
    { pose proof H2 as H2'. rewrite Hev, H1, <- app_assoc in H2'.
      now apply app_inv_head in H2'. }
    subst ev. rewrite existsb_app in Hno. apply orb_false_iff in Hno.
    pose proof (IH _ _ H2 (proj2 Hno)) as Hrest.
    unfold outcomes in *. rewrite filter_app, length_app, Ho1, Hrest.
    destruct (isSealed ckpt); reflexivity.
  - cbn [fst] in Hev. rewrite <- (app_nil_r t) in Hev at 1.
    apply app_inv_head in Hev. now subst ev.
Qed.

(** A node that accepts one broadcast only, two sealed checkpoints with
    an unsealed one between them, then the quit signal and one more
    sealed checkpoint: both submissions fail, after one and after no
    accepted transaction, and the log has two outcome lines. *)
Lemma sealedCkptHandler_one_outcome_per_sealed_witness :
  exists ev,
    fst (sealedCkptHandler
           (wallet [utxo "a" 0 1 true; utxo "b" 0 5 true; utxo "c" 0 3 true]
                   accept_first_only)
           (submitter 100000)
           [FromRawCkptChan (checkpoint 7 Sealed);
            FromRawCkptChan (checkpoint 8 Submitted);
            FromRawCkptChan (checkpoint 9 Sealed);
            FromQuit;
            FromRawCkptChan (checkpoint 10 Sealed)] []) = ev /\
    existsb isKeyOfNoAddress ev = false /\
    outcomes ev = 2%nat.
Proof.
  eexists. split; [reflexivity|]. split; [vm_compute; reflexivity|].
  apply (sealedCkptHandler_one_outcome_per_sealed
           (wallet [utxo "a" 0 1 true; utxo "b" 0 5 true; utxo "c" 0 3 true]
                   accept_first_only)
           (submitter 100000)
           [FromRawCkptChan (checkpoint 7 Sealed);
            FromRawCkptChan (checkpoint 8 Submitted);
            FromRawCkptChan (checkpoint 9 Sealed);
            FromQuit;
            FromRawCkptChan (checkpoint 10 Sealed)] []).
  - reflexivity.
  - vm_compute. reflexivity.
Defined.

End WorkerLoop.

(* ================================================================= *)
(** ** The reporter's event loop *)

Section EventLoop.
Import Reporter ReporterScenario ReporterLoops.
Open Scope string_scope.
Open Scope list_scope.

Ltac unfold_handler :=
  unfold call_, bind, call, logf, ret, panic; cbv beta iota.

Ltac next_goal_answer :=
  match goal with
  | |- context [match ?x with _ => _ end] =>
      lazymatch x with
      | context [match _ with _ => _ end] => fail
      | _ => destruct x eqn:?
      end
  end; cbv beta iota.

Ltac emitted :=
  cbn [fst snd]; rewrite <- ?app_assoc; cbn [app];
  match goal with
  | |- exists ev, ?t ++ ?l = ?t ++ ev /\ _ => exists l; split; [reflexivity|]
  | |- exists ev, ?t = ?t ++ ev /\ _ =>
      exists []; split; [symmetry; apply app_nil_r|]
  end.

Lemma Grouped_app (a b : Trace) : Grouped a -> Grouped b -> Grouped (a ++ b).
Proof.
  intros Ha Hb. induction Ha; cbn [app]; [exact Hb | |];
    constructor; assumption.
Qed.

Lemma Guarded_app env (hist a b : Trace) :
  Guarded env hist a -> Guarded env (hist ++ a) b -> Guarded env hist (a ++ b).
Proof.
  intros Ha. revert b. induction Ha as [hist|hist tip e rest Hm Ht Hr IH|hist e rest Hm Hr IH];
    intros b Hb; cbn [app].
  - now rewrite app_nil_r in Hb.
  - eapply Guarded_mutation; [exact Hm | exact Ht |]. apply IH.
    now rewrite <- app_assoc.
  - apply Guarded_other; [exact Hm|]. apply IH. now rewrite <- app_assoc.
Qed.

(** What one event adds to the trace. *)
Lemma onBlockEvent_events env event t :
  exists ev,
    fst (onBlockEvent env event t) = t ++ ev /\
    Grouped ev /\ Guarded env t ev.
Proof.
  unfold onBlockEvent, handleConnectedBlocks, handleDisconnectedBlocks.
  unfold_handler. repeat next_goal_answer.
  all: emitted.
  all: split; [repeat (constructor; try reflexivity)|].
  all: repeat first
         [ apply Guarded_nil
         | eapply Guarded_mutation; [reflexivity | eassumption |]
         | apply Guarded_other; [reflexivity|] ].
Qed.

(** The loop only adds to the trace, and in what it adds, over any run
    of events: every block added to the cache is handed at once to the
    header extraction and then to the checkpoint extraction, once each,
    and extraction runs on no other block. *)
Theorem blockEventHandler_extracts_what_it_adds
  (env : Env) (inbox : list Selected) (t : Trace) :
  exists ev,
    fst (blockEventHandler env inbox t) = t ++ ev /\ Grouped ev.
Proof.
  revert t. induction inbox as [|[event| |] inbox IH]; intros t;
    cbn [blockEventHandler].
  - exists []. split; [now rewrite app_nil_r | constructor].
  - destruct (onBlockEvent_events env event t) as (ev1 & H1 & Hg1 & _).
    destruct (onBlockEvent env event t) as [t1 [[]|e]]; cbn [fst] in H1; subst t1.
    + destruct (IH (t ++ ev1)) as (ev2 & H2 & Hg2).
      exists (ev1 ++ ev2). rewrite H2, app_assoc.
      split; [reflexivity | now apply Grouped_app].
    + now exists ev1.
  - eexists. split; [reflexivity|]. repeat (constructor; try reflexivity).
  - exists []. split; [now rewrite app_nil_r | constructor].
Qed.

(** Over any run of events, the loop changes the cache only right after
    it read the cache tip and the cache had one: no [Add] and no
    [RemoveLast] is ever issued on a cache that was just seen empty, or
    without looking. *)
Theorem blockEventHandler_mutates_after_tip
  (env : Env) (inbox : list Selected) (t : Trace) :
  exists ev,
    fst (blockEventHandler env inbox t) = t ++ ev /\ Guarded env t ev.
Proof.
  revert t. induction inbox as [|[event| |] inbox IH]; intros t;
    cbn [blockEventHandler].
  - exists []. split; [now rewrite app_nil_r | constructor].
  - destruct (onBlockEvent_events env event t) as (ev1 & H1 & _ & Hg1).
    destruct (onBlockEvent env event t) as [t1 [[]|e]]; cbn [fst] in H1; subst t1.
    + destruct (IH (t ++ ev1)) as (ev2 & H2 & Hg2).
      exists (ev1 ++ ev2). rewrite H2, app_assoc.
      split; [reflexivity | now apply Guarded_app].
    + now exists ev1.
  - eexists. split; [reflexivity|].
    apply Guarded_other; [reflexivity | constructor].
  - exists []. split; [now rewrite app_nil_r | constructor].
Qed.

Lemma blockEventHandler_app
  (env : Env) (inbox inbox' : list Selected) (t : Trace) :
  blockEventHandler env (inbox ++ inbox') t =
    match blockEventHandler env inbox t with
    | (t', Waiting) => blockEventHandler env inbox' t'
    | ended => ended
    end.
Proof.
  revert t. induction inbox as [|[event| |] inbox IH]; intros t;
    cbn [app blockEventHandler]; try reflexivity.
  destruct (onBlockEvent env event t) as [t1 [[]|e]]; [apply IH | reflexivity].
Qed.

(** What ends the loop, and for good.  After a run of events that left
    the loop waiting with the trace [t'], whatever [select] yields after
    the next outcome stays unhandled when that outcome is the closed
    channel (the loop logs it and returns), the quit signal (the loop
    returns) or an event on which the handler panics (the panic goes
    through the loop): the result is the same for every [rest].  Only an
    event that the handler finishes lets the loop go on with [rest]. *)
Theorem blockEventHandler_stops_for_good
  (env : Env) (inbox rest : list Selected) (t t' : Trace) :
  blockEventHandler env inbox t = (t', Waiting) ->
  blockEventHandler env (inbox ++ ChanClosed :: rest) t =
    (t' ++ [Logf LvlError "Block event channel is closed" []], Returned) /\
  blockEventHandler env (inbox ++ FromQuit :: rest) t = (t', Returned) /\
  (forall event t'' e,
     onBlockEvent env event t' = (t'', Panic e) ->
     blockEventHandler env (inbox ++ FromBlockEventChan event :: rest) t =
       (t'', Panicked e)) /\
  (forall event t'',
     onBlockEvent env event t' = (t'', Done tt) ->
     blockEventHandler env (inbox ++ FromBlockEventChan event :: rest) t =
       blockEventHandler env rest t'').
Proof.
  intros Hrun. split; [|split; [|split]].
  - rewrite blockEventHandler_app, Hrun. reflexivity.
  - rewrite blockEventHandler_app, Hrun. reflexivity.
  - intros event t'' e He. rewrite blockEventHandler_app, Hrun.
    cbn [blockEventHandler]. now rewrite He.
  - intros event t'' He. rewrite blockEventHandler_app, Hrun.
    cbn [blockEventHandler]. now rewrite He.
Qed.

(** A Connected event that extends the cache, then the closed channel,
    then one more event: the loop handles the first, logs that the
    channel is closed and returns; the last event is not handled. *)
Lemma blockEventHandler_stops_for_good_witness :
  exists t',
    blockEventHandler
      (reporter (Some (block 110 [x6d] [x6e]))
                (Ok (block 111 [x6e] [x6f], msgBlock [x6e] [x6f])) (Ok tt))
      [FromBlockEventChan (connected 111 [x6e] [x6f])] [] = (t', Waiting) /\
    blockEventHandler
      (reporter (Some (block 110 [x6d] [x6e]))
                (Ok (block 111 [x6e] [x6f], msgBlock [x6e] [x6f])) (Ok tt))
      [FromBlockEventChan (connected 111 [x6e] [x6f]);
       ChanClosed;
       FromBlockEventChan (disconnected 110 [x6d] [x6e])] [] =
      (t' ++ [Logf LvlError "Block event channel is closed" []], Returned).
Proof.
  destruct (blockEventHandler
              (reporter (Some (block 110 [x6d] [x6e]))
                        (Ok (block 111 [x6e] [x6f], msgBlock [x6e] [x6f])) (Ok tt))
              [FromBlockEventChan (connected 111 [x6e] [x6f])] [])
    as [t' o] eqn:Hrun.
  assert (Ho : o = Waiting)
    by (apply (f_equal snd) in Hrun; vm_compute in Hrun; congruence).
  subst o. exists t'. split; [reflexivity|].
  exact (proj1 (blockEventHandler_stops_for_good
                  (reporter (Some (block 110 [x6d] [x6e]))
                            (Ok (block 111 [x6e] [x6f], msgBlock [x6e] [x6f]))
                            (Ok tt))
                  [FromBlockEventChan (connected 111 [x6e] [x6f])]
                  [FromBlockEventChan (disconnected 110 [x6d] [x6e])]
                  [] t' Hrun)).
Defined.

(** What handling one event does to the cache, by the event's type and
    the way the handler ends. *)
Lemma onBlockEvent_actions env event t :
  exists ev,
    fst (onBlockEvent env event t) = t ++ ev /\
    (Type_ event = BlockDisconnected ->
     forallb (fun e => negb (isCacheStep e)) ev = true /\ fetches ev = 0%nat) /\
    (Type_ event = BlockConnected ->
     forallb (fun e => negb (isRemoveLast e)) ev = true) /\
    (snd (onBlockEvent env event t) = Done tt ->
     cacheActions ev = 1%nat /\
     fetches ev = match Type_ event with
                  | BlockConnected => 1%nat
                  | BlockDisconnected => 0%nat
                  end).
Proof.
  unfold onBlockEvent, handleConnectedBlocks, handleDisconnectedBlocks.
  destruct (Type_ event); unfold_handler; repeat next_goal_answer.
  all: emitted.
  all: repeat split; try reflexivity; try discriminate.
Qed.

(** A Disconnected event never adds a block to the cache, never runs an
    extraction and never fetches a block; a Connected event never
    removes a block from the cache. *)
Theorem onBlockEvent_stays_in_lane
  (env : Env) (event : BlockEvent) (t : Trace) :
  exists ev,
    fst (onBlockEvent env event t) = t ++ ev /\
    (Type_ event = BlockDisconnected ->
     forallb (fun e => negb (isCacheStep e)) ev = true /\ fetches ev = 0%nat) /\
    (Type_ event = BlockConnected ->
     forallb (fun e => negb (isRemoveLast e)) ev = true).
Proof.
  destruct (onBlockEvent_actions env event t) as (ev & Hev & Hd & Hc & _).
  now exists ev.
Qed.

(** When the loop has handled its whole inbox and waits for more, the
    inbox held events only, and each of them led to exactly one change
    of the cache: an [Add], a [RemoveLast] or a [Bootstrap]. *)
Theorem blockEventHandler_one_cache_action_per_event
  (env : Env) (inbox : list Selected) (t t' : Trace) :
  blockEventHandler env inbox t = (t', Waiting) ->
  forallb isEvent inbox = true /\
  exists ev, t' = t ++ ev /\ cacheActions ev = List.length inbox.
Proof.
  revert t. induction inbox as [|[event| |] inbox IH]; intros t;
    cbn [blockEventHandler]; intros H; try discriminate H.
  - inversion H; subst. split; [reflexivity|]. exists [].
    now rewrite app_nil_r.
  - destruct (onBlockEvent_actions env event t) as (ev1 & H1 & _ & _ & Hdone).
    destruct (onBlockEvent env event t) as [t1 [[]|e]]; [|discriminate H].
    cbn [fst snd] in H1, Hdone. subst t1.
    destruct (IH _ H) as (Hall & ev2 & -> & Hn).
    split; [exact Hall|]. exists (ev1 ++ ev2). rewrite app_assoc.
    split; [reflexivity|]. unfold cacheActions in *.
    rewrite filter_app, length_app, Hn.
    destruct (Hdone eq_refl) as [-> _]. reflexivity.
Qed.

Lemma blockEventHandler_one_cache_action_per_event_witness :
  exists ev,
    fst (blockEventHandler
           (reporter (Some (block 110 [x6d] [x6e]))
                     (Ok (block 111 [x6e] [x6f], msgBlock [x6e] [x6f])) (Ok tt))
           [FromBlockEventChan (connected 111 [x6e] [x6f]);
            FromBlockEventChan (disconnected 110 [x6d] [x6e]);
            FromBlockEventChan (disconnected 109 [x6c] [x6d])] []) = [] ++ ev /\
    cacheActions ev = 3%nat.
Proof.
  destruct (blockEventHandler
              (reporter (Some (block 110 [x6d] [x6e]))
                        (Ok (block 111 [x6e] [x6f], msgBlock [x6e] [x6f])) (Ok tt))
              [FromBlockEventChan (connected 111 [x6e] [x6f]);
               FromBlockEventChan (disconnected 110 [x6d] [x6e]);
               FromBlockEventChan (disconnected 109 [x6c] [x6d])] [])
    as [t' o] eqn:Hrun.
  assert (Ho : o = Waiting) by (apply (f_equal snd) in Hrun; vm_compute in Hrun; congruence).
  subst o.
  destruct (blockEventHandler_one_cache_action_per_event _ _ _ _ Hrun)
    as (_ & ev & Ht & Hn).
  exists ev. split; [exact Ht | exact Hn].
Defined.

End EventLoop.

(* ================================================================= *)
(** ** The reporter's ZMQ loop *)

Section ZmqEvents.
Import Reporter ReporterScenario ReporterLoops ZmqLoop.
Open Scope string_scope.
Open Scope list_scope.

Lemma core_app (a b : ZTrace) : core (a ++ b) = core a ++ core b.
Proof. unfold core. apply flat_map_app. Qed.

Lemma core_Core (l : Trace) : core (map Core l) = l.
Proof.
  induction l as [|e l IH]; [reflexivity|].
  change (core (map Core (e :: l))) with (e :: core (map Core l)).
  now rewrite IH.
Qed.

Lemma skipn_length_app {A} (a b : list A) : skipn (List.length a) (a ++ b) = b.
Proof. induction a as [|x a IH]; cbn; [reflexivity | exact IH]. Qed.

(** Run from inside the loop, a handler adds to the history what it
    adds when run alone. *)
Lemma run_onBlockEvent env event zt :
  exists ev,
    core (fst (run (onBlockEvent env event) zt)) = core zt ++ ev /\
    snd (run (onBlockEvent env event) zt) = snd (onBlockEvent env event (core zt)) /\
    Grouped ev /\ Guarded env (core zt) ev.
Proof.
  destruct (onBlockEvent_events env event (core zt)) as (ev & Hev & Hg & Hd).
  exists ev. unfold run.
  destruct (onBlockEvent env event (core zt)) as [t' o]. cbn [fst snd] in *.
  subst t'. rewrite skipn_length_app, core_app, core_Core. now repeat split.
Qed.

Lemma onSequenceMsg_events env codec msg zt :
  exists ev,
    core (fst (onSequenceMsg env codec msg zt)) = core zt ++ ev /\
    Grouped ev /\ Guarded env (core zt) ev.
Proof.
  unfold onSequenceMsg.
  destruct (NewHashFromStr codec _) as [blockHash|err].
  2:{ exists []. cbn [fst]. rewrite core_app. cbn. split; [reflexivity|].
      split; constructor. }
  cbv zeta.
  match goal with
  | |- context [GetBlockByHash env (core ?z) _] => set (zt1 := z)
  end.
  assert (Hc1 : core zt1 = core zt).
  { unfold zt1. rewrite core_app. cbn. now rewrite app_nil_r. }
  destruct (GetBlockByHash env (core zt1) blockHash) as [[ib mBlock]|err] eqn:Hget.
  2:{ exists [Call_GetBlockByHash blockHash]. cbn [fst].
      rewrite !core_app, Hc1. cbn. rewrite app_nil_r. split; [reflexivity|].
      split; repeat (constructor; try reflexivity). }
  match goal with
  | |- context [run ?h ?z] =>
      destruct (run_onBlockEvent env
                  {| Type_ := MsgEvent msg; EventHeight := Height ib;
                     EventHeader := Header ib |} z) as (ev & Hev & _ & Hg & Hd);
      destruct (run h z) as [zt3 [[]|e]]
  end; cbn [fst] in Hev |- *.
  - exists (Call_GetBlockByHash blockHash :: ev).
    rewrite core_app, Hev, core_app, Hc1. cbn. rewrite app_nil_r, <- app_assoc.
    split; [reflexivity|]. split.
    + now apply Grouped_other.
    + apply Guarded_other; [reflexivity|].
      now rewrite core_app, Hc1 in Hd.
  - exists (Call_GetBlockByHash blockHash :: ev).
    rewrite Hev, core_app, Hc1. cbn. rewrite <- app_assoc.
    split; [reflexivity|]. split.
    + now apply Grouped_other.
    + apply Guarded_other; [reflexivity|].
      now rewrite core_app, Hc1 in Hd.
Qed.

(** The ZMQ loop keeps the two disciplines of the block-event loop over
    any run of sequence messages: every block added to the cache goes at
    once to the header and then the checkpoint extraction, and the cache
    is changed only right after a [Tip] call that returned a block. *)
Theorem zmqSequenceMessageHandler_keeps_cache_discipline
  (env : Env) (codec : Codec) (inbox : list ZSelected) (zt : ZTrace) :
  exists ev,
    core (fst (zmqSequenceMessageHandler env codec inbox zt)) = core zt ++ ev /\
    Grouped ev /\ Guarded env (core zt) ev.
Proof.
  revert zt. induction inbox as [|[msg| |] inbox IH]; intros zt;
    cbn [zmqSequenceMessageHandler].
  - exists []. rewrite app_nil_r. repeat split; constructor.
  - destruct (onSequenceMsg_events env codec msg zt) as (ev1 & H1 & Hg1 & Hd1).
    destruct (onSequenceMsg env codec msg zt) as [zt1 [[]|e]]; cbn [fst] in H1.
    + destruct (IH zt1) as (ev2 & H2 & Hg2 & Hd2).
      exists (ev1 ++ ev2). rewrite H2, H1, app_assoc.
      split; [reflexivity|]. split; [now apply Grouped_app|].
      apply Guarded_app; [exact Hd1 | now rewrite <- H1].
    + now exists ev1.
  - exists []. cbn [fst]. rewrite core_app. cbn.
    repeat split; constructor.
  - exists []. rewrite app_nil_r. repeat split; constructor.
Qed.

Lemma run_core (h : R unit) (zt : ZTrace) (ev : Trace) :
  fst (h (core zt)) = core zt ++ ev ->
  core (fst (run h zt)) = core zt ++ ev /\
  snd (run h zt) = snd (h (core zt)).
Proof.
  intros Hev. unfold run. destruct (h (core zt)) as [t' o].
  cbn [fst snd] in *. subst t'.
  now rewrite skipn_length_app, core_app, core_Core.
Qed.

(** A sequence message that is handled without a panic costs one fetch
    of the block by the loop, and for a Connected message a second fetch
    by the handler: the block of a Connected message is fetched twice. *)
Theorem onSequenceMsg_fetches
  (env : Env) (codec : Codec) (msg : SequenceMsg) (zt zt' : ZTrace) :
  onSequenceMsg env codec msg zt = (zt', Done tt) ->
  exists ev,
    core zt' = core zt ++ ev /\
    fetches ev = match MsgEvent msg with
                 | BlockConnected => 2%nat
                 | BlockDisconnected => 1%nat
                 end.
Proof.
  unfold onSequenceMsg.
  destruct (NewHashFromStr codec _) as [blockHash|err]; [|discriminate].
  cbv zeta.
  match goal with
  | |- context [GetBlockByHash env (core ?z) _] => set (zt1 := z)
  end.
  assert (Hc1 : core zt1 = core zt).
  { unfold zt1. rewrite core_app. cbn. now rewrite app_nil_r. }
  destruct (GetBlockByHash env (core zt1) blockHash) as [[ib mBlock]|err];
    [|discriminate].
  set (zt2 := zt1 ++ [Core (Call_GetBlockByHash blockHash)]).
  assert (Hc2 : core zt2 = core zt ++ [Call_GetBlockByHash blockHash]).
  { unfold zt2. rewrite core_app, Hc1. reflexivity. }
  set (blockEvent := {| Type_ := MsgEvent msg; EventHeight := Height ib;
                        EventHeader := Header ib |}).
  destruct (onBlockEvent_actions env blockEvent (core zt2))
    as (ev & Hev & _ & _ & Hdone).
  destruct (run_core (onBlockEvent env blockEvent) zt2 ev Hev) as [Hcore Hsnd].
  destruct (run (onBlockEvent env blockEvent) zt2) as [zt3 o].
  cbn [fst snd] in Hcore, Hsnd. subst o.
  destruct (snd (onBlockEvent env blockEvent (core zt2))) as [[]|e];
    [|discriminate].
  intros H. inversion H; subst zt'; clear H.
  exists (Call_GetBlockByHash blockHash :: ev).
  rewrite core_app, Hcore, Hc2. cbn [core flat_map app].
  rewrite app_nil_r, <- app_assoc. split; [reflexivity|].
  destruct (Hdone eq_refl) as [_ Hf]. cbn [Type_ blockEvent] in Hf.
  unfold fetches in *. cbn [filter isFetch List.length]. rewrite Hf.
  destruct (MsgEvent msg); reflexivity.
Qed.

Lemma onSequenceMsg_fetches_witness :
  exists zt' ev,
    onSequenceMsg
      (reporter (Some (block 110 [x6d] [x6e]))
                (Ok (block 111 [x6e] [x6f], msgBlock [x6e] [x6f])) (Ok tt))
      MoreScenarios.codec
      (MoreScenarios.sequenceMsg [x6f] BlockConnected) [] = (zt', Done tt) /\
    core zt' = core [] ++ ev /\
    fetches ev = 2%nat.
Proof.
  destruct (onSequenceMsg
              (reporter (Some (block 110 [x6d] [x6e]))
                        (Ok (block 111 [x6e] [x6f], msgBlock [x6e] [x6f])) (Ok tt))
              MoreScenarios.codec
              (MoreScenarios.sequenceMsg [x6f] BlockConnected) [])
    as [zt' [[]|e]] eqn:Hrun; [|vm_compute in Hrun; discriminate Hrun].
  destruct (onSequenceMsg_fetches _ _ _ _ _ Hrun) as (ev & Hc & Hf).
  now exists zt', ev.
Defined.

End ZmqEvents.

(* ================================================================= *)
(** ** [sort.Slice] on a well-behaved order *)

Section SortedSlices.
Import SliceOrder.
Context {A : Type}.
Variable less : A -> A -> bool.

(** The entries a claim is made about, and what [less] must be on them
    for the sort to be one: asymmetric, and "not before" transitive. *)
Variable good : A -> Prop.
Hypothesis less_asym :
  forall x y, good x -> good y -> less x y = true -> less y x = false.
Hypothesis notless_trans :
  forall x y z, good x -> good y -> good z ->
    less y x = false -> less z y = false -> less z x = false.

Let before := SliceOrder.before less.

Lemma StronglySorted_snoc (R : A -> A -> Prop) (l : list A) (z : A) :
  StronglySorted R l -> Forall (fun a => R a z) l -> StronglySorted R (l ++ [z]).
Proof.
  induction 1 as [|a l Hs IH Ha]; intros Hz; cbn [app].
  - constructor; constructor.
  - inversion Hz; subst. constructor; [now apply IH|].
    apply Forall_app. split; [exact Ha | now constructor].
Qed.

Lemma StronglySorted_snoc_inv (R : A -> A -> Prop) (l : list A) (z : A) :
  StronglySorted R (l ++ [z]) -> StronglySorted R l /\ Forall (fun a => R a z) l.
Proof.
  induction l as [|a l IH]; cbn [app]; intros H.
  - split; constructor.
  - inversion H as [|? ? Hs Ha]; subst. destruct (IH Hs) as [Hl Hz].
    apply Forall_app in Ha. destruct Ha as [Ha Haz]. inversion Haz; subst.
    split; constructor; assumption.
Qed.

Lemma nth_error_middle (p : list A) (x : A) (q : list A) :
  nth_error (p ++ x :: q) (List.length p) = Some x.
Proof. induction p as [|a p IH]; [reflexivity | exact IH]. Qed.

Lemma update_middle (p : list A) (x y : A) (q : list A) :
  update (List.length p) y (p ++ x :: q) = p ++ y :: q.
Proof.
  induction p as [|a p IH]; [reflexivity|]. cbn [List.length app update].
  now rewrite IH.
Qed.

Lemma Swap_adjacent_app (p : list A) (y x : A) (q : list A) :
  Swap (p ++ y :: x :: q) (S (List.length p)) (List.length p) = p ++ x :: y :: q.
Proof.
  unfold Swap.
  assert (Hx : nth_error (p ++ y :: x :: q) (S (List.length p)) = Some x).
  { replace (p ++ y :: x :: q) with ((p ++ [y]) ++ x :: q)
      by now rewrite <- app_assoc.
    replace (S (List.length p)) with (List.length (p ++ [y]))
      by (rewrite length_app; cbn; lia).
    apply nth_error_middle. }
  rewrite Hx, nth_error_middle, update_middle.
  replace (p ++ x :: x :: q) with ((p ++ [x]) ++ x :: q)
    by now rewrite <- app_assoc.
  replace (S (List.length p)) with (List.length (p ++ [x]))
    by (rewrite length_app; cbn; lia).
  rewrite update_middle. now rewrite <- app_assoc.
Qed.

(** One pass of the inner loop puts the entry at index [length pre] in
    its place among the sorted entries [pre] before it. *)
Lemma sink_inserts (pre : list A) :
  forall (x : A) (post : list A),
    StronglySorted before pre ->
    Forall good (pre ++ [x]) ->
    exists pre',
      sink less (pre ++ x :: post) (List.length pre) = pre' ++ post /\
      Permutation (pre ++ [x]) pre' /\
      StronglySorted before pre'.
Proof.
  induction pre as [|y p IH] using rev_ind; intros x post Hs Hg.
  - exists [x]. repeat split; [reflexivity | repeat constructor].
  - rewrite length_app. cbn [List.length]. rewrite Nat.add_1_r.
    rewrite <- app_assoc. cbn [app sink].
    assert (Hx : nth_error (p ++ y :: x :: post) (S (List.length p)) = Some x).
    { replace (p ++ y :: x :: post) with ((p ++ [y]) ++ x :: post)
        by now rewrite <- app_assoc.
      replace (S (List.length p)) with (List.length (p ++ [y]))
        by (rewrite length_app; cbn; lia).
      apply nth_error_middle. }
    rewrite Hx, nth_error_middle.
    destruct (StronglySorted_snoc_inv _ _ _ Hs) as [Hp Hpy].
    apply Forall_app in Hg. destruct Hg as [Hgpy Hgx].
    apply Forall_app in Hgpy. destruct Hgpy as [Hgp Hgy].
    inversion Hgx as [|? ? Hgx' _]; subst. inversion Hgy as [|? ? Hgy' _]; subst.
    destruct (less x y) eqn:Hxy.
    + rewrite Swap_adjacent_app.
      destruct (IH x (y :: post) Hp) as (pre'' & Hsink & Hperm & Hsorted).
      { apply Forall_app. split; [exact Hgp | now constructor]. }
      exists (pre'' ++ [y]). rewrite Hsink, <- app_assoc. split; [reflexivity|].
      split.
      * rewrite <- app_assoc. cbn [app].
        transitivity ((p ++ [x]) ++ [y]).
        -- rewrite <- app_assoc. cbn [app]. apply Permutation_app_head, perm_swap.
        -- now apply Permutation_app_tail.
      * apply StronglySorted_snoc; [exact Hsorted|].
        eapply Permutation_Forall; [exact Hperm|].
        apply Forall_app. split; [exact Hpy|].
        constructor; [|constructor]. unfold before, SliceOrder.before.
        now apply less_asym.
    + exists ((p ++ [y]) ++ [x]). rewrite <- !app_assoc. cbn [app].
      split; [reflexivity|]. split; [reflexivity|].
      replace (p ++ [y; x]) with ((p ++ [y]) ++ [x]) by now rewrite <- app_assoc.
      apply StronglySorted_snoc; [exact Hs|].
      apply Forall_app. split.
      * rewrite Forall_forall in *. intros a Ha.
        apply (notless_trans a y x); auto. now apply Hpy.
      * constructor; [exact Hxy | constructor].
Qed.

Lemma fold_sink_sorts (post : list A) :
  forall pre : list A,
    StronglySorted before pre ->
    Forall good (pre ++ post) ->
    exists l',
      fold_left (sink less) (seq (List.length pre) (List.length post))
        (pre ++ post) = l' /\
      Permutation (pre ++ post) l' /\
      StronglySorted before l'.
Proof.
  induction post as [|x post IH]; intros pre Hs Hg.
  - exists pre. rewrite app_nil_r. cbn. repeat split; [reflexivity | exact Hs].
  - cbn [List.length seq fold_left].
    destruct (sink_inserts pre x post Hs) as (pre' & Hsink & Hperm & Hsorted).
    { replace (pre ++ x :: post) with ((pre ++ [x]) ++ post) in Hg
        by now rewrite <- app_assoc.
      now apply Forall_app in Hg. }
    rewrite Hsink.
    assert (Hlen : List.length pre' = S (List.length pre)).
    { rewrite <- (Permutation_length Hperm), length_app. cbn. lia. }
    rewrite <- Hlen.
    destruct (IH pre' Hsorted) as (l' & Hfold & Hperm' & Hsorted').
    { eapply Permutation_Forall; [|exact Hg].
      replace (pre ++ x :: post) with ((pre ++ [x]) ++ post)
        by now rewrite <- app_assoc.
      now apply Permutation_app_tail. }
    exists l'. split; [exact Hfold|]. split; [|exact Hsorted'].
    rewrite <- Hperm'.
    replace (pre ++ x :: post) with ((pre ++ [x]) ++ post)
      by now rewrite <- app_assoc.
    now apply Permutation_app_tail.
Qed.

(** On such entries the insertion sort of [sort.Slice] sorts: in its
    result no entry is [less] than one that stands before it. *)
Lemma insertionSort_sorts (l : list A) :
  Forall good l -> StronglySorted (SliceOrder.before less) (insertionSort less l).
Proof.
  intros Hg. unfold insertionSort. destruct l as [|a l]; [constructor|].
  replace (List.length (a :: l) - 1)%nat with (List.length l)
    by (cbn [List.length]; lia).
  destruct (fold_sink_sorts l [a]) as (l' & Hfold & _ & Hsorted).
  - repeat constructor.
  - exact Hg.
  - cbn [List.length app] in Hfold. now rewrite Hfold.
Qed.

End SortedSlices.

(* ================================================================= *)
(** ** The selection when every output can be spent *)

Section FundableSelection.
Import wire Submitter Scenario SliceOrder.
Open Scope string_scope.
Open Scope list_scope.

Lemma SFltb_asym a b : SFltb a b = true -> SFltb b a = false.
Proof.
  unfold SFltb, SFcompare.
  destruct a as [sa|sa| |sa ma ea], b as [sb|sb| |sb mb eb];
    try destruct sa; try destruct sb; try discriminate; try reflexivity.
  all: change (Pos.compare_cont Eq ma mb) with (Pos.compare ma mb);
       change (Pos.compare_cont Eq mb ma) with (Pos.compare mb ma).
  all: destruct (Z.compare_spec ea eb), (Z.compare_spec eb ea); try lia;
       try discriminate; try reflexivity.
  all: destruct (Pos.compare_spec ma mb), (Pos.compare_spec mb ma); try lia;
       try discriminate; try reflexivity.
Qed.

Lemma SFltb_notless_trans a b c :
  a <> S754_nan -> b <> S754_nan -> c <> S754_nan ->
  SFltb a b = false -> SFltb b c = false -> SFltb a c = false.
Proof.
  unfold SFltb, SFcompare.
  destruct a as [sa|sa| |sa ma ea], b as [sb|sb| |sb mb eb],
           c as [sc|sc| |sc mc ec];
    try destruct sa; try destruct sb; try destruct sc;
    try congruence; try discriminate; try reflexivity.
  all: change (Pos.compare_cont Eq ma mb) with (Pos.compare ma mb);
       change (Pos.compare_cont Eq mb mc) with (Pos.compare mb mc);
       change (Pos.compare_cont Eq ma mc) with (Pos.compare ma mc).
  all: intros _ _ _.
  all: destruct (Z.compare_spec ea eb), (Z.compare_spec eb ec),
                (Z.compare_spec ea ec);
       try lia; try discriminate; try reflexivity.
  all: destruct (Pos.compare_spec ma mb), (Pos.compare_spec mb mc),
                (Pos.compare_spec ma mc);
       try lia; try discriminate; try reflexivity.
Qed.

Lemma is_nan_false (x : float64) :
  PrimFloat.is_nan x = false -> Prim2SF x <> S754_nan.
Proof.
  unfold PrimFloat.is_nan. rewrite eqb_spec. intros H Hn.
  rewrite Hn in H. discriminate.
Qed.

(** [<] on [float64] is asymmetric, and on numbers "not below" is
    transitive. *)
Lemma float64_lt_asym (a b : float64) :
  (a <? b)%float = true -> (b <? a)%float = false.
Proof. rewrite !ltb_spec. apply SFltb_asym. Qed.

Lemma float64_notlt_trans (a b c : float64) :
  PrimFloat.is_nan a = false -> PrimFloat.is_nan b = false ->
  PrimFloat.is_nan c = false ->
  (a <? b)%float = false -> (b <? c)%float = false -> (a <? c)%float = false.
Proof.
  rewrite !ltb_spec. intros Ha Hb Hc.
  apply SFltb_notless_trans; now apply is_nan_false.
Qed.

Lemma utxoLess_asym x y :
  fundable x -> fundable y -> utxoLess x y = true -> utxoLess y x = false.
Proof.
  unfold utxoLess. intros _ _ H. apply andb_true_iff in H. destruct H as [_ H].
  rewrite (float64_lt_asym _ _ H). apply andb_false_r.
Qed.

Lemma utxoLess_notless_trans x y z :
  fundable x -> fundable y -> fundable z ->
  utxoLess y x = false -> utxoLess z y = false -> utxoLess z x = false.
Proof.
  unfold utxoLess. intros [_ Hx] [Hsy Hy] [Hsz Hz] H1 H2.
  rewrite Hsy in H1. rewrite Hsz in H2 |- *. cbn [andb] in *.
  exact (float64_notlt_trans _ _ _ Hx Hy Hz H1 H2).
Qed.

(** When the wallet lists at most [maxInsertion] outputs, all of them
    spendable and with a number for amount, the selection returns the
    two largest: the first has an amount not below any other's, the
    second an amount not below any of the rest. *)
Theorem getTopTwoUTXOs_two_largest
  (env : Env) (s : Submitter) (t t' : Trace)
  (utxos : list ListUnspentResult) (u0 u1 : ListUnspentResult) :
  ListUnspent env (searched t) = Ok utxos ->
  (List.length utxos <= maxInsertion)%nat ->
  Forall fundable utxos ->
  getTopTwoUTXOs env s t = (t', Ok (u0, u1)) ->
  exists rest,
    Permutation utxos (u0 :: u1 :: rest) /\
    Forall (fun u => (Amount u0 <? Amount u)%float = false) (u1 :: rest) /\
    Forall (fun u => (Amount u1 <? Amount u)%float = false) rest.
Proof.
  intros Hl Hlen Hgood Hrun.
  apply (f_equal snd) in Hrun. cbn [snd] in Hrun.
  destruct (getTopTwoUTXOs_cases env s t utxos Hl)
    as [[_ Hr] | (v0 & v1 & rest & Hs & _ & Hcase)]; [congruence|].
  destruct Hcase as [[_ Hr] | [(_ & _ & Hr) | (_ & _ & Hr)]]; try congruence.
  rewrite Hr in Hrun. inversion Hrun; subst v0 v1. clear Hrun Hr.
  pose proof (sort_Slice_Permutation utxoLess (pdqsort env utxoLess) utxos) as Hp.
  rewrite Hs in Hp.
  assert (Hsorted : StronglySorted (before utxoLess) (u0 :: u1 :: rest)).
  { rewrite <- Hs. unfold sort_Slice.
    apply Nat.leb_le in Hlen. rewrite Hlen.
    apply (insertionSort_sorts utxoLess fundable utxoLess_asym
             utxoLess_notless_trans). exact Hgood. }
  assert (Hg : Forall fundable (u0 :: u1 :: rest))
    by (eapply Permutation_Forall; eassumption).
  exists rest. split; [exact Hp|].
  inversion Hsorted as [|? ? Hs1 H0]; subst.
  inversion Hs1 as [|? ? _ H1]; subst.
  inversion Hg as [|? ? _ Hg1]; subst. inversion Hg1 as [|? ? _ Hg2]; subst.
  assert (Hconv : forall u l,
            Forall (before utxoLess u) l -> Forall fundable l ->
            Forall (fun z => (Amount u <? Amount z)%float = false) l).
  { intros u l Hb Hf. rewrite Forall_forall in *. intros z Hz.
    specialize (Hb z Hz). destruct (Hf z Hz) as [Hsz _].
    unfold before, utxoLess in Hb. now rewrite Hsz in Hb. }
  split; [now apply Hconv | now apply Hconv].
Qed.

Lemma getTopTwoUTXOs_two_largest_witness :
  exists rest,
    Permutation [utxo "a" 0 1 true; utxo "b" 0 5 true; utxo "c" 0 3 true]
                (utxo "b" 0 5 true :: utxo "c" 0 3 true :: rest) /\
    Forall (fun u => (5 <? Amount u)%float = false) (utxo "c" 0 3 true :: rest) /\
    Forall (fun u => (3 <? Amount u)%float = false) rest.
Proof.
  apply (getTopTwoUTXOs_two_largest
           (wallet [utxo "a" 0 1 true; utxo "b" 0 5 true; utxo "c" 0 3 true] accept)
           (submitter 100000) []
           (fst (getTopTwoUTXOs
                   (wallet [utxo "a" 0 1 true; utxo "b" 0 5 true; utxo "c" 0 3 true]
                           accept)
                   (submitter 100000) []))
           [utxo "a" 0 1 true; utxo "b" 0 5 true; utxo "c" 0 3 true]
           (utxo "b" 0 5 true) (utxo "c" 0 3 true)).
  - reflexivity.
  - cbn. unfold maxInsertion. lia.
  - repeat constructor.
  - vm_compute. reflexivity.
Defined.

End FundableSelection.

(* ================================================================= *)
(** ** The fee and the transactions of a submission *)

Section FeeGuard.
Import wire Submitter Scenario SubmitterTrace.
Open Scope string_scope.
Open Scope list_scope.




End FeeGuard.
